(** * Recipe catalog: ingestion sanitisation, listing and search

    A shallow embedding of [backend_server.js] (the Express handlers
    [/api/recipes] and [/api/recipes/search] and the loader
    [parseAndInsertRecipes]) together with the part of the relational store
    and of the JavaScript built-ins that those functions rely on.

    Conventions of the embedding
    - JavaScript numbers are kept exact: a finite number is a decimal
      [m / 10^scale]; rounding to binary64, overflow to Infinity and the
      sign of zero are not represented.
    - Strings are [string]s of ASCII characters; the white space removed by
      the numeric conversions is the ASCII white space.
    - A query-string parameter is absent or a string.
    - Exceptions are explicit: a handler returns [Ok200] or [Err500], a
      query returns [inl error] or [inr result]. *)

From Stdlib Require Import ZArith List String Ascii Bool Lia.
From Stdlib Require Import Sorted Permutation.
From Stdlib Require Import DecimalString.
Import ListNotations.

Local Open Scope string_scope.
Local Open Scope Z_scope.

(** ** JavaScript numbers *)

Module JsNumber.

Inductive number : Type :=
| NaN
| Inf (negative : bool)
| Fin (m : Z) (scale : nat).

(** [strip m s] is the normal form of [m / 10^s]: trailing zeros of the
    fraction are removed, so that an integer always has scale [0]. *)
Fixpoint strip (m : Z) (s : nat) : number :=
  match s with
  | O => Fin m 0
  | S s' => if (m mod 10 =? 0) then strip (m / 10) s' else Fin m s
  end.

(** [mk_dec m e] is [m * 10^e]. *)
Definition mk_dec (m e : Z) : number :=
  if 0 <=? e then Fin (m * 10 ^ e) 0 else strip m (Z.to_nat (- e)).

Definition pow10 (n : nat) : Z := 10 ^ Z.of_nat n.

(** Order of the extended reals; [None] when an operand is NaN. *)
Definition compare (a b : number) : option comparison :=
  match a, b with
  | NaN, _ | _, NaN => None
  | Inf true, Inf true => Some Eq
  | Inf true, _ => Some Lt
  | _, Inf true => Some Gt
  | Inf false, Inf false => Some Eq
  | Inf false, _ => Some Gt
  | _, Inf false => Some Lt
  | Fin m1 s1, Fin m2 s2 => Some (m1 * pow10 s2 ?= m2 * pow10 s1)
  end.

(** NaN or an integer, as [parseInt] gives. *)
Definition integral (x : number) : Prop := x = NaN \/ exists z, x = Fin z 0.

Definition is_nan (a : number) : bool :=
  match a with NaN => true | _ => false end.

Definition is_zero (a : number) : bool :=
  match a with Fin 0 _ => true | _ => false end.

(** ToBoolean on a number: [0] and [NaN] are falsy. *)
Definition truthy (a : number) : bool := negb (is_nan a || is_zero a).

Definition neg (a : number) : number :=
  match a with
  | NaN => NaN
  | Inf b => Inf (negb b)
  | Fin m s => Fin (- m) s
  end.

Definition sub (a b : number) : number :=
  match a, b with
  | NaN, _ | _, NaN => NaN
  | Inf x, Inf y => if Bool.eqb x y then NaN else Inf x
  | Inf x, Fin _ _ => Inf x
  | Fin _ _, Inf y => Inf (negb y)
  | Fin m1 s1, Fin m2 s2 =>
      let s := Nat.max s1 s2 in
      strip (m1 * pow10 (s - s1) - m2 * pow10 (s - s2)) s
  end.

Definition sign_negative (m : Z) : bool := m <? 0.

Definition mul (a b : number) : number :=
  match a, b with
  | NaN, _ | _, NaN => NaN
  | Inf x, Inf y => Inf (xorb x y)
  | Inf x, Fin m _ | Fin m _, Inf x =>
      if m =? 0 then NaN else Inf (xorb x (sign_negative m))
  | Fin m1 s1, Fin m2 s2 => strip (m1 * m2) (s1 + s2)
  end.

(** [Math.min] of two arguments. *)
Definition min (a b : number) : number :=
  match compare a b with
  | None => NaN
  | Some Gt => b
  | Some _ => a
  end.

(** [a || b] on numbers. *)
Definition or_else (a b : number) : number := if truthy a then a else b.

End JsNumber.
Export JsNumber.

(** ** Characters and strings *)

Module JsString.

Definition is_digit (c : ascii) : bool :=
  let n := nat_of_ascii c in (48 <=? n)%nat && (n <=? 57)%nat.

Definition digit_val (c : ascii) : Z := Z.of_nat (nat_of_ascii c) - 48.

(** Value of [c] as a digit of the given radix, if it is one. *)
Definition radix_digit (radix : Z) (c : ascii) : option Z :=
  let n := Z.of_nat (nat_of_ascii c) in
  let v := if (48 <=? n) && (n <=? 57) then n - 48
           else if (97 <=? n) && (n <=? 122) then n - 87
           else if (65 <=? n) && (n <=? 90) then n - 55
           else radix in
  if v <? radix then Some v else None.

Definition is_space (c : ascii) : bool :=
  let n := nat_of_ascii c in
  ((9 <=? n)%nat && (n <=? 13)%nat) || (n =? 32)%nat.

Fixpoint trim_start (s : string) : string :=
  match s with
  | String c s' => if is_space c then trim_start s' else s
  | EmptyString => EmptyString
  end.

Fixpoint all_space (s : string) : bool :=
  match s with
  | String c s' => is_space c && all_space s'
  | EmptyString => true
  end.

Definition is_empty (s : string) : bool :=
  match s with EmptyString => true | _ => false end.

(** [s.startsWith(p)] *)
Definition startsWith (s p : string) : bool := String.prefix p s.

(** [s.substring(n)] for [n] within the string or beyond it. *)
Fixpoint substring_from (n : nat) (s : string) : string :=
  match n, s with
  | O, _ => s
  | S n', String _ s' => substring_from n' s'
  | S _, EmptyString => EmptyString
  end.

(** Longest prefix made of decimal digits, and what follows it. *)
Fixpoint span_digits (s : string) : string * string :=
  match s with
  | String c s' =>
      if is_digit c
      then let (d, r) := span_digits s' in (String c d, r)
      else (EmptyString, s)
  | EmptyString => (EmptyString, EmptyString)
  end.

Fixpoint digits_value (acc : Z) (s : string) : Z :=
  match s with
  | EmptyString => acc
  | String c s' => digits_value (10 * acc + digit_val c) s'
  end.

(** Value of the longest prefix of radix digits; [None] when it is empty. *)
Fixpoint radix_value (radix : Z) (acc : option Z) (s : string) : option Z :=
  match s with
  | EmptyString => acc
  | String c s' =>
      match radix_digit radix c with
      | Some v =>
          radix_value radix
            (Some (radix * match acc with Some a => a | None => 0 end + v)) s'
      | None => acc
      end
  end.

(** The whole of [s], up to trailing white space, as a numeral of the given
    radix. *)
Fixpoint radix_whole (radix : Z) (acc : option Z) (s : string) : option Z :=
  match s with
  | EmptyString => acc
  | String c s' =>
      match radix_digit radix c with
      | Some v =>
          radix_whole radix
            (Some (radix * match acc with Some a => a | None => 0 end + v)) s'
      | None => if all_space s then acc else None
      end
  end.

(** [s.match(/\d+/)?.[0]]: the first maximal run of digits, if any. *)
Fixpoint first_digit_run (s : string) : option string :=
  match s with
  | EmptyString => None
  | String c s' =>
      if is_digit c then Some (fst (span_digits s)) else first_digit_run s'
  end.

End JsString.
Export JsString.

(** ** Conversions between numbers and strings *)

Module JsConv.

Definition digits_of (z : Z) : string :=
  NilZero.string_of_uint (N.to_uint (Z.to_N z)).

Fixpoint zeros (n : nat) : string :=
  match n with
  | O => EmptyString
  | S n' => String "0" (zeros n')
  end.

Fixpoint strip_zeros (s : string) : string :=
  match s with
  | EmptyString => EmptyString
  | String c s' =>
      let r := strip_zeros s' in
      if is_empty r && Ascii.eqb c "0" then EmptyString else String c r
  end.

Fixpoint take (n : nat) (s : string) : string :=
  match n, s with
  | S n', String c s' => String c (take n' s')
  | _, _ => EmptyString
  end.

(** Number::toString with radix 10. *)
Definition number_toString (x : number) : string :=
  match x with
  | NaN => "NaN"
  | Inf false => "Infinity"
  | Inf true => "-Infinity"
  | Fin 0 _ => "0"
  | Fin m s =>
      let sign := if m <? 0 then "-" else "" in
      let all := digits_of (Z.abs m) in
      let n := Z.of_nat (String.length all) - Z.of_nat s in
      let sig := strip_zeros all in
      let k := Z.of_nat (String.length sig) in
      let body :=
        if (k <=? n) && (n <=? 21) then sig ++ zeros (Z.to_nat (n - k))
        else if (0 <? n) && (n <=? 21)
             then take (Z.to_nat n) sig ++ "." ++ substring_from (Z.to_nat n) sig
        else if (-6 <? n) && (n <=? 0)
             then "0." ++ zeros (Z.to_nat (- n)) ++ sig
        else
          let e := n - 1 in
          (if k =? 1 then sig else take 1 sig ++ "." ++ substring_from 1 sig)
          ++ "e" ++ (if e <? 0 then "-" else "+") ++ digits_of (Z.abs e) in
      sign ++ body
  end.

(** Optional ExponentPart: the exponent and what follows it; an [e] that
    is not followed by digits is not part of the literal. *)
Definition parse_exponent (s : string) : Z * string :=
  match s with
  | String c s1 =>
      if Ascii.eqb c "e" || Ascii.eqb c "E" then
        let '(sgn, s2) :=
          match s1 with
          | String "+" t => (1, t)
          | String "-" t => (-1, t)
          | _ => (1, s1)
          end in
        let (d, r) := span_digits s2 in
        if is_empty d then (0, s) else (sgn * digits_value 0 d, r)
      else (0, s)
  | EmptyString => (0, s)
  end.

(** Longest prefix that is a StrUnsignedDecimalLiteral, with its value. *)
Definition parse_unsigned_decimal (s : string) : option (number * string) :=
  if startsWith s "Infinity" then Some (Inf false, substring_from 8 s)
  else
    let (ip, r1) := span_digits s in
    match r1 with
    | String "." r2 =>
        let (fp, r3) := span_digits r2 in
        if is_empty ip && is_empty fp then None
        else
          let (e, r4) := parse_exponent r3 in
          Some (mk_dec (digits_value 0 (ip ++ fp))
                       (e - Z.of_nat (String.length fp)), r4)
    | _ =>
        if is_empty ip then None
        else
          let (e, r4) := parse_exponent r1 in
          Some (mk_dec (digits_value 0 ip) e, r4)
    end.

(** Longest prefix that is a StrDecimalLiteral (optional sign). *)
Definition parse_decimal (s : string) : option (number * string) :=
  match s with
  | String "+" t => parse_unsigned_decimal t
  | String "-" t =>
      match parse_unsigned_decimal t with
      | Some (n, r) => Some (neg n, r)
      | None => None
      end
  | _ => parse_unsigned_decimal s
  end.

(** [parseFloat] applied to a string. *)
Definition parseFloat_string (s : string) : number :=
  match parse_decimal (trim_start s) with
  | Some (n, _) => n
  | None => NaN
  end.

(** [parseInt] applied to a string, no radix argument. *)
Definition parseInt_string (s : string) : number :=
  let t := trim_start s in
  let '(sgn, u) :=
    match t with
    | String "+" r => (1, r)
    | String "-" r => (-1, r)
    | _ => (1, t)
    end in
  let '(radix, body) :=
    if startsWith u "0x" || startsWith u "0X"
    then (16, substring_from 2 u) else (10, u) in
  match radix_value radix None body with
  | Some v => Fin (sgn * v) 0
  | None => NaN
  end.

(** StringToNumber, the conversion behind [Number(s)] and [isNaN(s)]. *)
Definition string_toNumber (s : string) : number :=
  let t := trim_start s in
  if is_empty t then Fin 0 0
  else
    let nondecimal (radix : Z) :=
      match radix_whole radix None (substring_from 2 t) with
      | Some v => Fin v 0
      | None => NaN
      end in
    if startsWith t "0x" || startsWith t "0X" then nondecimal 16
    else if startsWith t "0o" || startsWith t "0O" then nondecimal 8
    else if startsWith t "0b" || startsWith t "0B" then nondecimal 2
    else
      match parse_decimal t with
      | Some (n, r) => if all_space r then n else NaN
      | None => NaN
      end.

End JsConv.
Export JsConv.

(** ** JavaScript values *)

Module JsValue.

Local Set Warnings "-register-all".

(** The values that [JSON.parse] and the handlers produce.  An object keeps
    its properties in enumeration order, each key once. *)
Inductive value : Type :=
| VUndefined
| VNull
| VBool (b : bool)
| VNum (n : number)
| VStr (s : string)
| VArr (elems : list value)
| VObj (props : list (string * value)).

(** ToString.  An array is joined with commas, [null] and [undefined]
    elements giving the empty string; a plain object gives
    ["[object Object]"]. *)
Fixpoint toString (v : value) : string :=
  match v with
  | VUndefined => "undefined"
  | VNull => "null"
  | VBool true => "true"
  | VBool false => "false"
  | VNum n => number_toString n
  | VStr s => s
  | VArr elems =>
      (fix join (l : list value) : string :=
         match l with
         | [] => ""
         | x :: rest =>
             let sx := match x with
                       | VUndefined | VNull => ""
                       | _ => toString x
                       end in
             match rest with
             | [] => sx
             | _ :: _ => sx ++ "," ++ join rest
             end
         end) elems
  | VObj _ => "[object Object]"
  end.

(** ToNumber. *)
Definition toNumber (v : value) : number :=
  match v with
  | VUndefined => NaN
  | VNull => Fin 0 0
  | VBool true => Fin 1 0
  | VBool false => Fin 0 0
  | VNum n => n
  | VStr s => string_toNumber s
  | VArr _ | VObj _ => string_toNumber (toString v)
  end.

(** The global [isNaN]: it converts its argument with ToNumber first. *)
Definition isNaN (v : value) : bool := is_nan (toNumber v).

(** The global [parseFloat] and [parseInt]: they convert their argument
    with ToString first. *)
Definition parseFloat (v : value) : number := parseFloat_string (toString v).
Definition parseInt (v : value) : number := parseInt_string (toString v).

(** ToBoolean. *)
Definition truthy (v : value) : bool :=
  match v with
  | VUndefined | VNull => false
  | VBool b => b
  | VNum n => JsNumber.truthy n
  | VStr s => negb (is_empty s)
  | VArr _ | VObj _ => true
  end.

(** [a || b] *)
Definition or_else (a b : value) : value := if truthy a then a else b.

(** [v === 'NaN'] and the like. *)
Definition strict_eq_string (v : value) (s : string) : bool :=
  match v with
  | VStr t => String.eqb t s
  | _ => false
  end.

Fixpoint lookup (k : string) (props : list (string * value)) : option value :=
  match props with
  | [] => None
  | (k', v) :: rest => if String.eqb k k' then Some v else lookup k rest
  end.

(** [v.k] for the property names the loader reads.  [None] is the
    TypeError raised on [null] and [undefined]; a missing property is
    [undefined]. *)
Definition get (v : value) (k : string) : option value :=
  match v with
  | VUndefined | VNull => None
  | VObj props =>
      Some (match lookup k props with Some x => x | None => VUndefined end)
  | _ => Some VUndefined
  end.

(** The values of [Object.entries(v)] in order; [None] is the TypeError on
    [null] and [undefined].  The entries of a string are its characters. *)
Definition entry_values (v : value) : option (list value) :=
  match v with
  | VUndefined | VNull => None
  | VObj props => Some (map snd props)
  | VArr elems => Some elems
  | VStr s => Some (map (fun c => VStr (String c EmptyString)) (list_ascii_of_string s))
  | _ => Some []
  end.

(** [typeof v === 'object'] *)
Definition typeof_object (v : value) : bool :=
  match v with
  | VNull | VArr _ | VObj _ => true
  | _ => false
  end.

End JsValue.
Export JsValue.

(** ** The record store

    The relational engine is an external collaborator.  This module states
    the part of its behaviour that the handlers depend on: the typed
    columns of the [recipes] table, how a statement with numbered
    placeholders is bound to the parameters sent with it, how a [WHERE]
    conjunction is evaluated, and [ORDER BY rating DESC NULLS LAST, id ASC]
    followed by [LIMIT] and [OFFSET]. *)

Module Store.

(** One row of [recipes].  [created_at] is filled by the store and read by
    no handler; it is left out. *)
Record row : Type := mkRow {
  id : Z;
  cuisine : option string;
  title : option string;
  rating : option number;
  prep_time : option Z;
  cook_time : option Z;
  total_time : option Z;
  description : option string;
  nutrients : option value;
  serves : option string
}.

Definition table := list row.

Inductive error : Type :=
| ParameterCount      (* bind supplies a wrong number of parameters *)
| InvalidInput        (* a text that is not a value of the column's type *)
| OutOfRange
| ValueTooLong
| NegativeLimit.

Definition result (A : Type) : Type := (error + A)%type.

Definition ok {A : Type} (a : A) : result A := inr a.
Definition fail {A : Type} (e : error) : result A := inl e.

Definition bind {A B : Type} (r : result A) (k : A -> result B) : result B :=
  match r with
  | inl e => inl e
  | inr a => k a
  end.

Notation "x <- r ;; k" := (bind r (fun x => k))
  (at level 61, r at next level, right associativity).

(** *** Input conversions *)

Definition in_int4 (z : Z) : bool := (- 2 ^ 31 <=? z) && (z <? 2 ^ 31).
Definition in_int8 (z : Z) : bool := (- 2 ^ 63 <=? z) && (z <? 2 ^ 63).

(** The integer written by [s]: optional white space, an optional sign,
    decimal digits, optional white space.  Used for [CAST(text AS INTEGER)]
    and for a text parameter bound to an integer placeholder. *)
Definition integer_of_text (s : string) : result Z :=
  let t := trim_start s in
  let '(sgn, u) :=
    match t with
    | String "+" r => (1, r)
    | String "-" r => (-1, r)
    | _ => (1, t)
    end in
  let (d, r) := span_digits u in
  if is_empty d || negb (all_space r) then fail InvalidInput
  else ok (sgn * digits_value 0 d).

Definition int4_of_text (s : string) : result Z :=
  z <- integer_of_text s ;;
  if in_int4 z then ok z else fail OutOfRange.

Definition int8_of_text (s : string) : result Z :=
  z <- integer_of_text s ;;
  if in_int8 z then ok z else fail OutOfRange.

(** A parameter as the handler pushes it on [queryParams]; the driver sends
    a number as its [toString]. *)
Inductive param : Type :=
| PText (s : string)
| PNum (n : number).

Definition param_text (p : param) : string :=
  match p with
  | PText s => s
  | PNum n => number_toString n
  end.

(** The integer that the text of a number denotes.  The text of a number
    with an integral value is its decimal numeral (for the integers of the
    store's range); that of NaN, of an infinity or of a fraction is not a
    numeral. *)
Definition integer_of_number (n : number) : result Z :=
  match n with
  | Fin m s =>
      match strip m s with
      | Fin z O => ok z
      | _ => fail InvalidInput
      end
  | _ => fail InvalidInput
  end.

Definition int4_of_number (n : number) : result Z :=
  z <- integer_of_number n ;;
  if in_int4 z then ok z else fail OutOfRange.

(** A parameter bound to an [integer] or a [bigint] placeholder. *)
Definition int4_of_param (p : param) : result Z :=
  match p with
  | PText s => int4_of_text s
  | PNum n => int4_of_number n
  end.

Definition int8_of_param (p : param) : result Z :=
  match p with
  | PText s => int8_of_text s
  | PNum n =>
      z <- integer_of_number n ;;
      if in_int8 z then ok z else fail OutOfRange
  end.

(** A parameter bound to a [double precision] placeholder.  The text of a
    number reads back as that number, ["NaN"] included; a text parameter is
    never bound to such a placeholder by the handlers. *)
Definition float8_of_param (p : param) : result number :=
  match p with
  | PNum n => ok n
  | PText _ => fail InvalidInput
  end.

(** *** Comparisons *)

Inductive operator : Type := Ge | Le | Gt | Lt | Eq.

Definition holds (o : operator) (c : comparison) : bool :=
  match o, c with
  | Ge, (Datatypes.Gt | Datatypes.Eq) => true
  | Le, (Datatypes.Lt | Datatypes.Eq) => true
  | Gt, Datatypes.Gt => true
  | Lt, Datatypes.Lt => true
  | Eq, Datatypes.Eq => true
  | _, _ => false
  end.

(** The order of [double precision]: NaN equals itself and is greater than
    every other value. *)
Definition float8_compare (a b : number) : comparison :=
  match JsNumber.compare a b with
  | Some c => c
  | None =>
      match a, b with
      | NaN, NaN => Datatypes.Eq
      | NaN, _ => Datatypes.Gt
      | _, _ => Datatypes.Lt
      end
  end.

Definition lower (c : ascii) : ascii :=
  let n := nat_of_ascii c in
  if (65 <=? n)%nat && (n <=? 90)%nat then ascii_of_nat (n + 32) else c.

Fixpoint lower_string (s : string) : string :=
  match s with
  | EmptyString => EmptyString
  | String c s' => String (lower c) (lower_string s')
  end.

(** [t LIKE p]: [%] matches any run, [_] one character, a backslash takes
    the next character literally.  A pattern that ends in a lone backslash
    is rejected by the store; the handlers end every pattern with [%]. *)
Fixpoint like (p t : string) : bool :=
  match p with
  | EmptyString => is_empty t
  | String "%" p' =>
      (fix any (u : string) : bool :=
         like p' u ||
         match u with
         | EmptyString => false
         | String _ u' => any u'
         end) t
  | String "_" p' =>
      match t with
      | EmptyString => false
      | String _ t' => like p' t'
      end
  | String "\" EmptyString => false
  | String "\" (String c p') =>
      match t with
      | EmptyString => false
      | String c' t' => Ascii.eqb c c' && like p' t'
      end
  | String c p' =>
      match t with
      | EmptyString => false
      | String c' t' => Ascii.eqb c c' && like p' t'
      end
  end.

Definition ilike (p t : string) : bool := like (lower_string p) (lower_string t).

(** [a] is not below [b] in the order of [double precision]. *)
Definition not_below (a b : number) : Prop := float8_compare a b <> Datatypes.Lt.

(** *** Statements

    A condition of the [WHERE] clause with the number of its placeholder:
    [title ILIKE $n], [rating >= $n],
    [CAST(nutrients->>'calories' AS INTEGER) <= $n], ... *)

Inductive text_column : Type := Title | Cuisine.
Inductive int_column : Type := TotalTime | Calories.

Inductive condition : Type :=
| TextILike (c : text_column) (placeholder : nat)
| RatingCompare (o : operator) (placeholder : nat)
| IntCompare (c : int_column) (o : operator) (placeholder : nat).

Definition placeholder_of (c : condition) : nat :=
  match c with
  | TextILike _ n => n
  | RatingCompare _ n => n
  | IntCompare _ _ n => n
  end.

(** A condition whose placeholder has received its value. *)
Inductive bound : Type :=
| BLike (c : text_column) (pattern : string)
| BFloat (o : operator) (x : number)
| BInt (c : int_column) (o : operator) (z : Z).

(** [$n] among the parameters of the bind message. *)
Definition parameter (params : list param) (n : nat) : result param :=
  match n with
  | O => fail ParameterCount
  | S i =>
      match nth_error params i with
      | Some p => ok p
      | None => fail ParameterCount
      end
  end.

(** The type of a placeholder is that of the column it is compared with:
    text for [title] and [cuisine], [double precision] for [rating],
    [integer] for [total_time] and for the cast of the calories. *)
Definition bind_condition (params : list param) (c : condition) : result bound :=
  match c with
  | TextILike col n =>
      p <- parameter params n ;; ok (BLike col (param_text p))
  | RatingCompare o n =>
      p <- parameter params n ;; x <- float8_of_param p ;; ok (BFloat o x)
  | IntCompare col o n =>
      p <- parameter params n ;; z <- int4_of_param p ;; ok (BInt col o z)
  end.

Fixpoint bind_conditions (params : list param) (cs : list condition)
  : result (list bound) :=
  match cs with
  | [] => ok []
  | c :: cs' =>
      b <- bind_condition params c ;;
      bs <- bind_conditions params cs' ;;
      ok (b :: bs)
  end.

(** [LIMIT $n] and [OFFSET $n] take a [bigint] that is not negative. *)
Definition bind_count (params : list param) (n : nat) : result nat :=
  p <- parameter params n ;;
  z <- int8_of_param p ;;
  if z <? 0 then fail NegativeLimit else ok (Z.to_nat z).

(** [CAST(nutrients->>'calories' AS INTEGER)]: [->>] gives the text of the
    member [calories] of a JSON object and NULL when there is none, when it
    is JSON [null] or when [nutrients] is not an object; the cast then
    reads the text as an integer or fails.  The text of an array or object
    member starts with a bracket and is never an integer. *)
Definition calories_of (n : option value) : result (option Z) :=
  match n with
  | Some (VObj props) =>
      match lookup "calories" props with
      | None | Some VNull | Some VUndefined => ok None
      | Some (VStr s) => z <- int4_of_text s ;; ok (Some z)
      | Some (VNum x) => z <- int4_of_number x ;; ok (Some z)
      | Some (VBool _) | Some (VArr _) | Some (VObj _) => fail InvalidInput
      end
  | _ => ok None
  end.

(** Value of a condition on a row; [None] is SQL NULL. *)
Definition eval_bound (b : bound) (r : row) : result (option bool) :=
  match b with
  | BLike Title pat => ok (option_map (ilike pat) (title r))
  | BLike Cuisine pat => ok (option_map (ilike pat) (cuisine r))
  | BFloat o x =>
      ok (option_map (fun v => holds o (float8_compare v x)) (rating r))
  | BInt Calories o z =>
      c <- calories_of (nutrients r) ;;
      ok (option_map (fun v => holds o (v ?= z)) c)
  | BInt TotalTime o z =>
      ok (option_map (fun v => holds o (v ?= z)) (total_time r))
  end.

(** The conjunction of the [WHERE] clause, left to right; a row is kept
    when every condition is true, and an error ends the query. *)
Fixpoint row_matches (bs : list bound) (r : row) : result bool :=
  match bs with
  | [] => ok true
  | b :: bs' =>
      v <- eval_bound b r ;;
      match v with
      | Some true => row_matches bs' r
      | _ => ok false
      end
  end.

Fixpoint scan (bs : list bound) (t : table) : result (list row) :=
  match t with
  | [] => ok []
  | r :: t' =>
      keep <- row_matches bs r ;;
      rest <- scan bs t' ;;
      ok (if keep then r :: rest else rest)
  end.

(** Rows selected by [WHERE cs] under the given parameters. *)
Definition where_rows (cs : list condition) (params : list param) (t : table)
  : result (list row) :=
  bs <- bind_conditions params cs ;; scan bs t.

(** *** Ordering *)

(** [ORDER BY rating DESC NULLS LAST, id ASC]: [precedes r1 r2] when [r1]
    comes no later than [r2]. *)
Definition precedes (r1 r2 : row) : bool :=
  match rating r1, rating r2 with
  | None, None => id r1 <=? id r2
  | None, Some _ => false
  | Some _, None => true
  | Some a, Some b =>
      match float8_compare a b with
      | Datatypes.Gt => true
      | Datatypes.Lt => false
      | Datatypes.Eq => id r1 <=? id r2
      end
  end.

(** [before a b]: row [a] may come before row [b] in the result. *)
Definition before (a b : row) : Prop := precedes a b = true.

Fixpoint insert_sorted (r : row) (l : list row) : list row :=
  match l with
  | [] => [r]
  | x :: l' => if precedes r x then r :: l else x :: insert_sorted r l'
  end.

Fixpoint order_by (l : list row) : list row :=
  match l with
  | [] => []
  | r :: l' => insert_sorted r (order_by l')
  end.

(** *** The two kinds of query *)

Fixpoint max_placeholder (cs : list condition) : nat :=
  match cs with
  | [] => O
  | c :: cs' => Nat.max (placeholder_of c) (max_placeholder cs')
  end.

(** A statement needs as many parameters as its highest placeholder; a
    bind message with another number of parameters is refused. *)
Definition check_count (needed : nat) (params : list param) : result unit :=
  if (List.length params =? needed)%nat then ok tt else fail ParameterCount.

(** [SELECT * FROM recipes WHERE cs ORDER BY ... LIMIT $l OFFSET $o] *)
Definition select_page (t : table) (cs : list condition) (l o : nat)
    (params : list param) : result (list row) :=
  _ <- check_count (Nat.max (max_placeholder cs) (Nat.max l o)) params ;;
  lim <- bind_count params l ;;
  off <- bind_count params o ;;
  matched <- where_rows cs params t ;;
  ok (firstn lim (skipn off (order_by matched))).

(** [SELECT COUNT( * ) FROM recipes WHERE cs] *)
Definition select_count (t : table) (cs : list condition)
    (params : list param) : result Z :=
  _ <- check_count (max_placeholder cs) params ;;
  matched <- where_rows cs params t ;;
  ok (Z.of_nat (List.length matched)).

End Store.
Export Store.

(** ** The handlers of [backend_server.js] *)

Module Server.

(** The body of a 200 response. *)
Record response : Type := mkResponse {
  page : number;
  limit : number;
  total : Z;
  data : list row
}.

Inductive reply : Type :=
| Ok200 (r : response)
| Err500.

(** [req.query.name]: absent is [undefined]. *)
Definition query_value (q : option string) : value :=
  match q with
  | Some s => VStr s
  | None => VUndefined
  end.

(** *** [app.get('/api/recipes')] *)

Record list_query : Type := mkListQuery {
  lq_page : option string;
  lq_limit : option string
}.

Definition list_page (q : list_query) : number :=
  JsNumber.or_else (parseInt (query_value (lq_page q))) (Fin 1 0).

Definition list_limit (q : list_query) : number :=
  JsNumber.min (JsNumber.or_else (parseInt (query_value (lq_limit q))) (Fin 10 0))
               (Fin 50 0).

Definition list_offset (q : list_query) : number :=
  mul (sub (list_page q) (Fin 1 0)) (list_limit q).

Definition list_recipes (t : table) (q : list_query) : reply :=
  let page := list_page q in
  let limit := list_limit q in
  let offset := list_offset q in
  match
    (total <- select_count t [] [] ;;
     rows <- select_page t [] 1 2 [PNum limit; PNum offset] ;;
     ok (mkResponse page limit total rows))
  with
  | inr r => Ok200 r
  | inl _ => Err500
  end.

(** *** [app.get('/api/recipes/search')] *)

Record search_query : Type := mkSearchQuery {
  sq_calories : option string;
  sq_title : option string;
  sq_cuisine : option string;
  sq_total_time : option string;
  sq_rating : option string;
  sq_page : option string;
  sq_limit : option string
}.

(** The three variables the filters are accumulated in. *)
Record builder : Type := mkBuilder {
  whereConditions : list condition;
  queryParams : list param;
  paramCount : nat
}.

(** [if (f)] on a query parameter: present and not the empty string. *)
Definition given (f : option string) : option string :=
  match f with
  | Some s => if is_empty s then None else Some s
  | None => None
  end.

(** The chain of [startsWith] tests: the operator and the number of
    characters it takes. *)
Definition operator_prefix (s : string) : operator * nat :=
  if startsWith s ">=" then (Ge, 2%nat)
  else if startsWith s "<=" then (Le, 2%nat)
  else if startsWith s ">" then (Gt, 1%nat)
  else if startsWith s "<" then (Lt, 1%nat)
  else if startsWith s "=" then (Eq, 1%nat)
  else (Eq, 0%nat).

Definition add_text (c : text_column) (f : option string) (b : builder) : builder :=
  match given f with
  | Some s =>
      let n := S (paramCount b) in
      mkBuilder (whereConditions b ++ [TextILike c n])%list
                (queryParams b ++ [PText ("%" ++ s ++ "%")])%list
                n
  | None => b
  end.

Definition add_rating (f : option string) (b : builder) : builder :=
  match given f with
  | Some s =>
      let n := S (paramCount b) in
      let (o, k) := operator_prefix s in
      mkBuilder (whereConditions b ++ [RatingCompare o n])%list
                (queryParams b ++ [PNum (parseFloat_string (substring_from k s))])%list
                n
  | None => b
  end.

Definition add_total_time (f : option string) (b : builder) : builder :=
  match given f with
  | Some s =>
      let n := S (paramCount b) in
      let (o, k) := operator_prefix s in
      mkBuilder (whereConditions b ++ [IntCompare TotalTime o n])%list
                (queryParams b ++ [PNum (parseInt_string (substring_from k s))])%list
                n
  | None => b
  end.

(** [paramCount] is incremented before the digits are looked for. *)
Definition add_calories (f : option string) (b : builder) : builder :=
  match given f with
  | Some s =>
      let n := S (paramCount b) in
      match first_digit_run s with
      | Some caloriesValue =>
          mkBuilder
            (whereConditions b ++ [IntCompare Calories (fst (operator_prefix s)) n])%list
            (queryParams b ++ [PNum (parseInt_string caloriesValue)])%list
            n
      | None => mkBuilder (whereConditions b) (queryParams b) n
      end
  | None => b
  end.

Definition build_filters (q : search_query) : builder :=
  add_calories (sq_calories q)
    (add_total_time (sq_total_time q)
       (add_rating (sq_rating q)
          (add_text Cuisine (sq_cuisine q)
             (add_text Title (sq_title q) (mkBuilder [] [] 0))))).

(** The destructuring defaults [page = 1, limit = 10] apply to an absent
    parameter only. *)
Definition search_page (q : search_query) : number :=
  parseInt (match sq_page q with Some s => VStr s | None => VNum (Fin 1 0) end).

Definition search_limit (q : search_query) : number :=
  JsNumber.min
    (parseInt (match sq_limit q with Some s => VStr s | None => VNum (Fin 10 0) end))
    (Fin 50 0).

Definition search_offset (q : search_query) : number :=
  mul (sub (search_page q) (Fin 1 0)) (search_limit q).

(** [a.slice(0, -2)] *)
Definition slice_0_minus2 {A : Type} (a : list A) : list A :=
  firstn (List.length a - 2) a.

Definition search_recipes (t : table) (q : search_query) : reply :=
  let b := build_filters q in
  let pageNum := search_page q in
  let limitNum := search_limit q in
  let offset := search_offset q in
  let limit_placeholder := S (paramCount b) in
  let offset_placeholder := S limit_placeholder in
  let params := (queryParams b ++ [PNum limitNum] ++ [PNum offset])%list in
  match
    (rows <- select_page t (whereConditions b)
                         limit_placeholder offset_placeholder params ;;
     total <- select_count t (whereConditions b) (slice_0_minus2 params) ;;
     ok (mkResponse pageNum limitNum total rows))
  with
  | inr r => Ok200 r
  | inl _ => Err500
  end.

(** *** Pages and routes *)

(** What a page of rows is: the slice of the ordered rows that the page
    number and the page size select. *)
Definition page_of (p l : Z) (matched : list row) : list row :=
  firstn (Z.to_nat l) (skipn (Z.to_nat ((p - 1) * l)) (order_by matched)).

Inductive request : Type :=
| GetRecipes (q : list_query)
| GetSearch (q : search_query).

Definition handle (t : table) (req : request) : reply :=
  match req with
  | GetRecipes q => list_recipes t q
  | GetSearch q => search_recipes t q
  end.

(** Two requests for pages of the same query: the same route and, for a
    search, the same filters. *)
Definition same_filters (a b : request) : Prop :=
  match a, b with
  | GetRecipes _, GetRecipes _ => True
  | GetSearch q1, GetSearch q2 =>
      sq_calories q1 = sq_calories q2 /\ sq_title q1 = sq_title q2 /\
      sq_cuisine q1 = sq_cuisine q2 /\ sq_total_time q1 = sq_total_time q2 /\
      sq_rating q1 = sq_rating q2
  | _, _ => False
  end.

(** The rows a request selects before they are ordered and paged. *)
Definition selected (t : table) (req : request) : result (list row) :=
  match req with
  | GetRecipes _ => inr t
  | GetSearch q =>
      where_rows (whereConditions (build_filters q))
                 (queryParams (build_filters q)) t
  end.

(** The highest placeholder of the conditions is the number of parameters
    pushed for them. *)
Definition well_numbered (b : builder) : Prop :=
  max_placeholder (whereConditions b) = List.length (queryParams b).

(** [paramCount] is the number of parameters pushed. *)
Definition aligned (b : builder) : Prop :=
  paramCount b = List.length (queryParams b) /\ well_numbered b.

End Server.
Export Server.

(** ** The loader [parseAndInsertRecipes] *)

Module Loader.

(** The table and the sequence behind [id], represented by the last value
    it gave.  The values that a refused row may consume are not
    represented. *)
Record database : Type := mkDatabase {
  rows : table;
  last_id : Z
}.

(** The nine parameters of the [INSERT], in order.  A numeric parameter is
    [null] ([None]) or a number. *)
Record insert_params : Type := mkParams {
  p_cuisine : value;
  p_title : value;
  p_rating : option number;
  p_prep_time : option number;
  p_cook_time : option number;
  p_total_time : option number;
  p_description : value;
  p_nutrients : value;
  p_serves : value
}.

(** [isNaN(x) || x === 'NaN' ? null : parseFloat(x)] *)
Definition sanitize_float (x : value) : option number :=
  if isNaN x || strict_eq_string x "NaN" then None else Some (parseFloat x).

(** [isNaN(x) || x === 'NaN' ? null : parseInt(x)] *)
Definition sanitize_int (x : value) : option number :=
  if isNaN x || strict_eq_string x "NaN" then None else Some (parseInt x).

(** The test under which an entry of [nutrients] is deleted. *)
Definition is_nan_entry (v : value) : bool :=
  strict_eq_string v "NaN" || isNaN v.

(** [recipe.nutrients || {}] with the entries that pass the test deleted.
    Deleting an element of an array leaves a hole, which reads as
    [undefined]. *)
Definition clean_nutrients (raw : value) : value :=
  let nutrients := JsValue.or_else raw (VObj []) in
  if typeof_object nutrients then
    match nutrients with
    | VObj props =>
        VObj (filter (fun kv => negb (is_nan_entry (snd kv))) props)
    | VArr elems =>
        VArr (map (fun v => if is_nan_entry v then VUndefined else v) elems)
    | other => other
    end
  else nutrients.

(** The parameters computed for one recipe; [None] is the TypeError of
    reading a property of [null]. *)
Definition recipe_params (recipe : value) : option insert_params :=
  match get recipe "rating", get recipe "prep_time", get recipe "cook_time",
        get recipe "total_time", get recipe "nutrients", get recipe "cuisine",
        get recipe "title", get recipe "description", get recipe "serves" with
  | Some rating, Some prep, Some cook, Some tot, Some nutr, Some cui,
    Some tit, Some descr, Some srv =>
      Some (mkParams (JsValue.or_else cui VNull)
                     (JsValue.or_else tit VNull)
                     (sanitize_float rating)
                     (sanitize_int prep)
                     (sanitize_int cook)
                     (sanitize_int tot)
                     (JsValue.or_else descr VNull)
                     (clean_nutrients nutr)
                     (JsValue.or_else srv VNull))
  | _, _, _, _, _, _, _, _, _ => None
  end.

(** The four scalar text fields of a recipe. *)
Inductive text_field : Type := FCuisine | FTitle | FDescription | FServes.

Definition field_name (f : text_field) : string :=
  match f with
  | FCuisine => "cuisine"
  | FTitle => "title"
  | FDescription => "description"
  | FServes => "serves"
  end.

Definition field_param (f : text_field) (p : insert_params) : value :=
  match f with
  | FCuisine => p_cuisine p
  | FTitle => p_title p
  | FDescription => p_description p
  | FServes => p_serves p
  end.

Definition field_cell (f : text_field) (r : row) : option string :=
  match f with
  | FCuisine => cuisine r
  | FTitle => title r
  | FDescription => description r
  | FServes => serves r
  end.

Section Driver.

(** The text that the database driver sends for a parameter that is an
    array or an object. *)
Variable composite_text : value -> string.

Definition text_of_param (v : value) : option string :=
  match v with
  | VUndefined | VNull => None
  | VStr s => Some s
  | VNum n => Some (number_toString n)
  | VBool true => Some "true"
  | VBool false => Some "false"
  | VArr _ | VObj _ => Some (composite_text v)
  end.

Fixpoint all_blank (s : string) : bool :=
  match s with
  | EmptyString => true
  | String c s' => Ascii.eqb c " " && all_blank s'
  end.

(** [VARCHAR(n)]: a longer text is refused unless the excess is blank. *)
Definition varchar (n : nat) (s : option string) : result (option string) :=
  match s with
  | None => ok None
  | Some t =>
      if (String.length t <=? n)%nat then ok (Some t)
      else if all_blank (substring_from n t) then ok (Some (take n t))
      else fail ValueTooLong
  end.

Definition integer_cell (x : option number) : result (option Z) :=
  match x with
  | None => ok None
  | Some n => z <- int4_of_number n ;; ok (Some z)
  end.

(** [JSON.stringify] read back by the [JSONB] column: a hole of an array is
    written as [null]. *)
Definition jsonb_cell (v : value) : value :=
  match v with
  | VArr elems =>
      VArr (map (fun x => match x with VUndefined => VNull | _ => x end) elems)
  | _ => v
  end.

(** The [INSERT]: the row gets the next [id], or the store refuses it. *)
Definition insert (db : database) (p : insert_params) : result database :=
  let new_id := last_id db + 1 in
  c <- varchar 100 (text_of_param (p_cuisine p)) ;;
  t <- varchar 255 (text_of_param (p_title p)) ;;
  prep <- integer_cell (p_prep_time p) ;;
  cook <- integer_cell (p_cook_time p) ;;
  tot <- integer_cell (p_total_time p) ;;
  s <- varchar 50 (text_of_param (p_serves p)) ;;
  ok (mkDatabase
        (rows db ++ [mkRow new_id c t (p_rating p) prep cook tot
                           (text_of_param (p_description p))
                           (Some (jsonb_cell (p_nutrients p))) s])%list
        new_id).

(** The loop over the recipes.  A refused [INSERT] is logged and skipped.
    The TypeError on a [null] recipe is raised again by the inner handler,
    which reads [recipe.title], and the outer handler ends the run. *)
Fixpoint insert_all (recipes : list value) (db : database) (insertedCount : Z)
  : database * Z :=
  match recipes with
  | [] => (db, insertedCount)
  | recipe :: rest =>
      match recipe_params recipe with
      | None => (db, insertedCount)
      | Some p =>
          match insert db p with
          | inr db' => insert_all rest db' (insertedCount + 1)
          | inl _ => insert_all rest db insertedCount
          end
      end
  end.

(** [file] is the parsed content of the JSON file, [None] when it cannot
    be read or parsed.  The result is the database and [insertedCount]. *)
Definition parseAndInsertRecipes (file : option value) (db : database)
  : database * Z :=
  match file with
  | None => (db, 0)
  | Some recipesData =>
      if 0 <? Z.of_nat (List.length (rows db)) then (db, 0)
      else
        match entry_values recipesData with
        | None => (db, 0)
        | Some recipes => insert_all recipes db 0
        end
  end.

End Driver.

End Loader.
Export Loader.

(** ** Sample data *)

Module Sample.

Definition no_text (v : value) : string := "".

Definition empty_db : database := mkDatabase [] 0.

Definition int (z : Z) : value := VNum (Fin z 0).

(** Five rows as a correct load would leave them. *)
Definition recipes : table :=
  [ mkRow 1 (Some "Southern Recipes") (Some "Sweet Potato Pie")
          (Some (Fin 48 1)) (Some 15) (Some 100) (Some 115) None
          (Some (VObj [("calories", VStr "389")])) (Some "8 servings");
    mkRow 2 None (Some "Apple Pie") (Some (Fin 4 0)) None None (Some 30) None
          (Some (VObj [("calories", VStr "450")])) None;
    mkRow 3 None (Some "Soup") None None None None None (Some (VObj [])) None;
    mkRow 4 None (Some "Stew") (Some (Fin 48 1)) None None None None None None;
    mkRow 5 None (Some "Cake") (Some (Fin 5 0)) None None (Some 10) None
          (Some (VObj [("calories", int 100)])) None ].

(** The rows of the scenario of the calories filter. *)
Definition kcal_389 : row :=
  mkRow 1 None (Some "Sweet Potato Pie") (Some (Fin 48 1)) None None None None
        (Some (VObj [("calories", VStr "389 kcal")])) None.

Definition kcal_450 : row :=
  mkRow 2 None (Some "Apple Pie") (Some (Fin 4 0)) None None None None
        (Some (VObj [("calories", VStr "450 kcal")])) None.

Definition no_filter : search_query :=
  mkSearchQuery None None None None None None None.

Definition with_rating (s : string) : search_query :=
  mkSearchQuery None None None None (Some s) None None.

Definition with_total_time (s : string) : search_query :=
  mkSearchQuery None None None (Some s) None None None.

Definition with_calories (s : string) : search_query :=
  mkSearchQuery (Some s) None None None None None None.

Definition with_page (s : string) : search_query :=
  mkSearchQuery None None None None None (Some s) None.

Definition with_limit (s : string) : search_query :=
  mkSearchQuery None None None None None None (Some s).

Definition e_title_page (p : string) : search_query :=
  mkSearchQuery None (Some "e") None None None (Some p) (Some "2").

(** A file with one recipe whose nutrients carry units. *)
Definition file_with_units : value :=
  VObj [("0", VObj [("title", VStr "Sweet Potato Pie");
                    ("rating", VNum (Fin 48 1));
                    ("nutrients",
                     VObj [("calories", VStr "389 kcal");
                           ("proteinContent", VStr "5 g");
                           ("fatContent", VStr "NaN")])])].

(** A file with one recipe whose rating is JSON [null]. *)
Definition file_with_null_rating : value :=
  VObj [("0", VObj [("title", VStr "Sweet Potato Pie"); ("rating", VNull)])].

(** A file with one recipe whose cuisine is the empty string. *)
Definition recipe_with_empty_cuisine : value :=
  VObj [("title", VStr "Sweet Potato Pie"); ("cuisine", VStr "")].

Definition file_with_empty_cuisine : value :=
  VObj [("0", recipe_with_empty_cuisine)].

End Sample.

(** ** What the filters of a search mean

    The meaning of a search stated on a row, without conditions,
    placeholders or parameters: the row must pass every filter that is
    given. *)

Module Meaning.

(** [title] and [cuisine]: the pattern [%value%] under [ILIKE]. *)
Definition holds_text (f : option string) (cell : option string) : bool :=
  match given f with
  | None => true
  | Some s =>
      match cell with
      | Some x => ilike ("%" ++ s ++ "%") x
      | None => false
      end
  end.

(** [rating]: the operator of the prefix against the number after it. *)
Definition holds_rating (f : option string) (cell : option number) : bool :=
  match given f with
  | None => true
  | Some s =>
      let (o, k) := operator_prefix s in
      match cell with
      | Some v => holds o (float8_compare v (parseFloat_string (substring_from k s)))
      | None => false
      end
  end.

(** [total_time]: the operator of the prefix against the integer after
    it. *)
Definition holds_total_time (f : option string) (cell : option Z) : bool :=
  match given f with
  | None => true
  | Some s =>
      let (o, k) := operator_prefix s in
      match int4_of_number (parseInt_string (substring_from k s)), cell with
      | inr z, Some v => holds o (v ?= z)
      | _, _ => false
      end
  end.

(** [calories]: the operator of the prefix against the first run of digits
    of the value, on the stored calories read as an integer. *)
Definition holds_calories (f : option string) (n : option value) : bool :=
  match given f with
  | None => true
  | Some s =>
      match first_digit_run s with
      | None => true
      | Some d =>
          match int4_of_number (parseInt_string d), calories_of n with
          | inr z, inr (Some c) => holds (fst (operator_prefix s)) (c ?= z)
          | _, _ => false
          end
      end
  end.

Definition meets (q : search_query) (r : row) : bool :=
  holds_text (sq_title q) (title r) &&
  holds_text (sq_cuisine q) (cuisine r) &&
  holds_rating (sq_rating q) (rating r) &&
  holds_total_time (sq_total_time q) (total_time r) &&
  holds_calories (sq_calories q) (nutrients r).

(** [t.includes(s)] *)
Fixpoint includes (t s : string) : bool :=
  String.prefix s t ||
  match t with
  | EmptyString => false
  | String _ t' => includes t' s
  end.

(** A character that [LIKE] takes literally. *)
Definition plain_char (c : ascii) : bool :=
  negb (Ascii.eqb c "%" || Ascii.eqb c "_" || Ascii.eqb c "\").

Fixpoint plain (s : string) : bool :=
  match s with
  | EmptyString => true
  | String c s' => plain_char c && plain s'
  end.

(** The cell holds a text that contains [s], letter case apart. *)
Definition contains_text (s : string) (cell : option string) : bool :=
  match cell with
  | Some x => includes (lower_string x) (lower_string s)
  | None => false
  end.

(** The operators as they are written in a filter value. *)
Definition operator_text (o : operator) : string :=
  match o with
  | Ge => ">="
  | Le => "<="
  | Gt => ">"
  | Lt => "<"
  | Eq => "="
  end.

(** The first character of [v] is not [c]. *)
Definition not_starting_with (c : ascii) (v : string) : Prop :=
  match v with
  | String c' _ => c' <> c
  | EmptyString => True
  end.

(** The conditions are numbered from 1 in order, with one parameter
    each. *)
Definition numbered (b : builder) : Prop :=
  map placeholder_of (whereConditions b) = seq 1 (List.length (whereConditions b)) /\
  List.length (queryParams b) = List.length (whereConditions b).

(** *** The conditions of a request once bound *)

(** A row is selected when every bound condition is true on it. *)
Definition selects (bs : list bound) (r : row) : bool :=
  match row_matches bs r with
  | inr true => true
  | _ => false
  end.

(** What a condition is bound to by its own parameter. *)
Definition bind_alone (c : condition) (p : param) : result bound :=
  match c with
  | TextILike col _ => ok (BLike col (param_text p))
  | RatingCompare o _ => x <- float8_of_param p ;; ok (BFloat o x)
  | IntCompare col o _ => z <- int4_of_param p ;; ok (BInt col o z)
  end.

Definition text_bound (col : text_column) (f : option string) : list bound :=
  match given f with
  | Some s => [BLike col ("%" ++ s ++ "%")]
  | None => []
  end.

Definition rating_bound (f : option string) : list bound :=
  match given f with
  | Some s =>
      let (o, k) := operator_prefix s in
      [BFloat o (parseFloat_string (substring_from k s))]
  | None => []
  end.

Definition total_time_bound (f : option string) : result (list bound) :=
  match given f with
  | Some s =>
      let (o, k) := operator_prefix s in
      z <- int4_of_number (parseInt_string (substring_from k s)) ;;
      ok [BInt TotalTime o z]
  | None => ok []
  end.

Definition calories_bound (f : option string) : result (list bound) :=
  match given f with
  | Some s =>
      match first_digit_run s with
      | Some d =>
          z <- int4_of_number (parseInt_string d) ;;
          ok [BInt Calories (fst (operator_prefix s)) z]
      | None => ok []
      end
  | None => ok []
  end.

(** A bound condition other than the one on the calories, which is the
    only one that casts a stored text. *)
Definition no_cast (b : bound) : bool :=
  match b with
  | BInt Calories _ _ => false
  | _ => true
  end.

(** The bound conditions of a request, in the order of the handler. *)
Definition bounds (q : search_query) : result (list bound) :=
  tt <- total_time_bound (sq_total_time q) ;;
  c <- calories_bound (sq_calories q) ;;
  ok (text_bound Title (sq_title q) ++ text_bound Cuisine (sq_cuisine q) ++
      rating_bound (sq_rating q) ++ tt ++ c)%list.

End Meaning.
Export Meaning.

(** ** The view [recipes_with_calories] of [database_setup.sql] *)

Module View.







End View.
Export View.

(** ** Start-up: [initializeDatabase] and [startServer] *)

Module Startup.

(** The store before start-up: [None] when the table [recipes] does not
    exist yet. *)
Definition store := option database.

(** [CREATE TABLE IF NOT EXISTS]: an existing table is left as it is. *)
Definition initializeDatabase (s : store) : database :=
  match s with
  | Some db => db
  | None => mkDatabase [] 0
  end.

(** The file [US_recipes.json]: absent, or present with its parsed content
    ([None] when it cannot be read or parsed). *)
Definition json_file := option (option value).

(** The database with which the server starts to listen. *)
Definition startServer (composite_text : value -> string)
    (file : json_file) (s : store) : database :=
  let db := initializeDatabase s in
  match file with
  | Some content => fst (parseAndInsertRecipes composite_text content db)
  | None => db
  end.

(** The ids of the rows increase along the table and none exceeds the
    last value of the sequence. *)
Definition well_formed (db : database) : Prop :=
  StronglySorted Z.lt (map id (rows db)) /\
  Forall (fun r => id r <= last_id db) (rows db).

(** A database that extends another: the same rows first, and a sequence
    that has not gone back. *)
Definition extends (db' db : database) : Prop :=
  (exists added, rows db' = (rows db ++ added)%list) /\ last_id db <= last_id db'.

End Startup.
Export Startup.

(** ** The checks of [api_tests.js]

    Each test sends its requests to the server and throws when a check
    fails; here a test is the boolean that tells whether it passes on a
    given table.  A 500 reply makes the request, and so the test, fail. *)

Module ApiTests.

(** A rating as the client reads it: [res.json] writes NaN and the
    infinities as [null]. *)
Definition wire_rating (x : option number) : option number :=
  match x with
  | Some (Fin m s) => Some (Fin m s)
  | _ => None
  end.

(** [recipe.rating || 0] *)
Definition rating_or_0 (r : row) : number :=
  match wire_rating (rating r) with
  | Some n => JsNumber.or_else n (Fin 0 0)
  | None => Fin 0 0
  end.

(** [a < b] on numbers. *)
Definition less (a b : number) : bool :=
  match JsNumber.compare a b with
  | Some Datatypes.Lt => true
  | _ => false
  end.

Definition testGetRecipesBasic (t : table) : bool :=
  match list_recipes t (mkListQuery (Some "1") (Some "5")) with
  | Ok200 r =>
      match JsNumber.compare (page r) (Fin 1 0), JsNumber.compare (limit r) (Fin 5 0) with
      | Some Datatypes.Eq, Some Datatypes.Eq => negb (Nat.eqb (List.length (data r)) 0)
      | _, _ => false
      end
  | Err500 => false
  end.

(** The loop over [i < data.length - 1]. *)
Fixpoint ratings_descend (data : list row) : bool :=
  match data with
  | x :: rest =>
      match rest with
      | y :: _ => negb (less (rating_or_0 x) (rating_or_0 y)) && ratings_descend rest
      | [] => true
      end
  | [] => true
  end.

Definition testGetRecipesSorting (t : table) : bool :=
  match list_recipes t (mkListQuery (Some "1") (Some "10")) with
  | Ok200 r => ratings_descend (data r)
  | Err500 => false
  end.

Definition title_query (s : string) : search_query :=
  mkSearchQuery None (Some s) None None None None None.

Definition rating_query (s : string) : search_query :=
  mkSearchQuery None None None None (Some s) None None.

Definition total_time_query (s : string) : search_query :=
  mkSearchQuery None None None (Some s) None None None.

(** [!recipe.title || !recipe.title.toLowerCase().includes('pie')] *)
Definition lacks_pie (r : row) : bool :=
  match title r with
  | Some x => is_empty x || negb (includes (lower_string x) "pie")
  | None => true
  end.

Definition testSearchByTitle (t : table) : bool :=
  match search_recipes t (title_query "pie") with
  | Ok200 r => forallb (fun x => negb (lacks_pie x)) (data r)
  | Err500 => false
  end.

(** [recipe.rating && recipe.rating < 4.5] *)
Definition rated_below_4_5 (r : row) : bool :=
  match wire_rating (rating r) with
  | Some n => JsNumber.truthy n && less n (Fin 45 1)
  | None => false
  end.

Definition testSearchByRating (t : table) : bool :=
  match search_recipes t (rating_query ">=4.5") with
  | Ok200 r => forallb (fun x => negb (rated_below_4_5 x)) (data r)
  | Err500 => false
  end.

(** [recipe.total_time && recipe.total_time > 60] *)
Definition takes_over_60 (r : row) : bool :=
  match total_time r with
  | Some z => negb (z =? 0) && (60 <? z)
  | None => false
  end.

Definition testSearchByTotalTime (t : table) : bool :=
  match search_recipes t (total_time_query "<=60") with
  | Ok200 r => forallb (fun x => negb (takes_over_60 x)) (data r)
  | Err500 => false
  end.

(** The ids of the first page that are also on the second. *)
Definition testPagination (t : table) : bool :=
  match list_recipes t (mkListQuery (Some "1") (Some "3")),
        list_recipes t (mkListQuery (Some "2") (Some "3")) with
  | Ok200 page1, Ok200 page2 =>
      let ids1 := map id (data page1) in
      let ids2 := map id (data page2) in
      forallb (fun i => negb (existsb (Z.eqb i) ids2)) ids1
  | _, _ => false
  end.

(** A rating that the sorting test can compare: none, or a number that is
    not negative. *)
Definition comparable_rating (r : row) : Prop :=
  match rating r with
  | None => True
  | Some (Fin m _) => 0 <= m
  | Some _ => False
  end.

End ApiTests.
Export ApiTests.

(** * Properties *)

(** ** The order of the result rows *)

Module OrderFacts.

Lemma pow10_pos (n : nat) : 0 < pow10 n.
Proof. unfold pow10. apply Z.pow_pos_nonneg; lia. Qed.

(** Comparing two scaled decimals agrees with comparing them after a common
    positive factor. *)
Lemma scaled_le_trans (a b c p1 p2 p3 : Z) :
  0 < p1 -> 0 < p2 -> 0 < p3 ->
  a * p2 <= b * p1 -> b * p3 <= c * p2 -> a * p3 <= c * p1.
Proof.
  intros H1 H2 H3 Hab Hbc.
  apply (Z.mul_le_mono_pos_r _ _ p2); [assumption|].
  apply Z.le_trans with (b * p1 * p3).
  - replace (a * p3 * p2) with (a * p2 * p3) by ring.
    apply Z.mul_le_mono_nonneg_r; lia.
  - replace (b * p1 * p3) with (b * p3 * p1) by ring.
    replace (c * p1 * p2) with (c * p2 * p1) by ring.
    apply Z.mul_le_mono_nonneg_r; lia.
Qed.

Lemma scaled_lt_le_trans (a b c p1 p2 p3 : Z) :
  0 < p1 -> 0 < p2 -> 0 < p3 ->
  a * p2 < b * p1 -> b * p3 <= c * p2 -> a * p3 < c * p1.
Proof.
  intros H1 H2 H3 Hab Hbc.
  apply (Z.mul_lt_mono_pos_r p2); [assumption|].
  apply Z.lt_le_trans with (b * p1 * p3).
  - replace (a * p3 * p2) with (a * p2 * p3) by ring.
    apply Z.mul_lt_mono_pos_r; lia.
  - replace (b * p1 * p3) with (b * p3 * p1) by ring.
    replace (c * p1 * p2) with (c * p2 * p1) by ring.
    apply Z.mul_le_mono_nonneg_r; lia.
Qed.

Lemma scaled_le_lt_trans (a b c p1 p2 p3 : Z) :
  0 < p1 -> 0 < p2 -> 0 < p3 ->
  a * p2 <= b * p1 -> b * p3 < c * p2 -> a * p3 < c * p1.
Proof.
  intros H1 H2 H3 Hab Hbc.
  apply (Z.mul_lt_mono_pos_r p2); [assumption|].
  apply Z.le_lt_trans with (b * p1 * p3).
  - replace (a * p3 * p2) with (a * p2 * p3) by ring.
    apply Z.mul_le_mono_nonneg_r; lia.
  - replace (b * p1 * p3) with (b * p3 * p1) by ring.
    replace (c * p1 * p2) with (c * p2 * p1) by ring.
    apply Z.mul_lt_mono_pos_r; lia.
Qed.

Lemma float8_compare_antisym (a b : number) :
  float8_compare b a = CompOpp (float8_compare a b).
Proof.
  destruct a as [|[|]|m1 s1], b as [|[|]|m2 s2]; try reflexivity.
  unfold float8_compare; simpl. apply Z.compare_antisym.
Qed.

Lemma float8_compare_fin (m1 m2 : Z) (s1 s2 : nat) :
  float8_compare (Fin m1 s1) (Fin m2 s2) = (m1 * pow10 s2 ?= m2 * pow10 s1).
Proof. reflexivity. Qed.

Lemma not_below_trans (a b c : number) :
  not_below a b -> not_below b c -> not_below a c.
Proof.
  unfold not_below.
  destruct a as [|[|]|m1 s1], b as [|[|]|m2 s2], c as [|[|]|m3 s3];
    try (cbv; congruence); try (intros; cbv; congruence).
  rewrite !float8_compare_fin, !Z.compare_lt_iff.
  intros H1 H2 H3.
  pose proof (pow10_pos s1). pose proof (pow10_pos s2). pose proof (pow10_pos s3).
  assert (m3 * pow10 s1 <= m1 * pow10 s3)
    by (apply (scaled_le_trans m3 m2 m1 (pow10 s3) (pow10 s2) (pow10 s1)); lia).
  lia.
Qed.

(** When [a] is not below [b], [b] not below [c] and [a] ties with [c], the
    three tie. *)
Lemma tie_squeeze (a b c : number) :
  not_below a b -> not_below b c -> float8_compare a c = Datatypes.Eq ->
  float8_compare a b = Datatypes.Eq /\ float8_compare b c = Datatypes.Eq.
Proof.
  unfold not_below.
  destruct a as [|[|]|m1 s1], b as [|[|]|m2 s2], c as [|[|]|m3 s3];
    try (cbv; intuition congruence).
  rewrite !float8_compare_fin, !Z.compare_lt_iff, !Z.compare_eq_iff.
  intros H1 H2 H3.
  pose proof (pow10_pos s1). pose proof (pow10_pos s2). pose proof (pow10_pos s3).
  assert (Hle1 : m2 * pow10 s1 <= m1 * pow10 s2) by lia.
  assert (Hle2 : m3 * pow10 s2 <= m2 * pow10 s3) by lia.
  split.
  - destruct (Z.eq_dec (m1 * pow10 s2) (m2 * pow10 s1)) as [|Hne]; [assumption|].
    assert (m2 * pow10 s1 < m1 * pow10 s2) by lia.
    assert (m3 * pow10 s1 < m1 * pow10 s3)
      by (apply (scaled_le_lt_trans m3 m2 m1 (pow10 s3) (pow10 s2) (pow10 s1)); lia).
    lia.
  - destruct (Z.eq_dec (m2 * pow10 s3) (m3 * pow10 s2)) as [|Hne]; [assumption|].
    assert (m3 * pow10 s2 < m2 * pow10 s3) by lia.
    assert (m3 * pow10 s1 < m1 * pow10 s3)
      by (apply (scaled_lt_le_trans m3 m2 m1 (pow10 s3) (pow10 s2) (pow10 s1)); lia).
    lia.
Qed.

Lemma precedes_total (a b : row) : precedes a b = false -> precedes b a = true.
Proof.
  unfold precedes.
  destruct (rating a) as [x|], (rating b) as [y|]; try congruence.
  - rewrite (float8_compare_antisym x y).
    destruct (float8_compare x y); simpl; try congruence.
    intros H. apply Z.leb_le. apply Z.leb_gt in H. lia.
  - intros H. apply Z.leb_le. apply Z.leb_gt in H. lia.
Qed.

Lemma precedes_trans (a b c : row) : before a b -> before b c -> before a c.
Proof.
  unfold before, precedes.
  destruct (rating a) as [x|], (rating b) as [y|], (rating c) as [z|];
    try congruence.
  - intros Hab Hbc.
    assert (Hxy : not_below x y)
      by (unfold not_below; destruct (float8_compare x y); congruence).
    assert (Hyz : not_below y z)
      by (unfold not_below; destruct (float8_compare y z); congruence).
    pose proof (not_below_trans x y z Hxy Hyz) as Hxz.
    destruct (float8_compare x z) eqn:E.
    + destruct (tie_squeeze x y z Hxy Hyz E) as [E1 E2].
      rewrite E1 in Hab. rewrite E2 in Hbc.
      apply Z.leb_le in Hab. apply Z.leb_le in Hbc. apply Z.leb_le. lia.
    + exfalso. apply Hxz. exact E.
    + reflexivity.
  - intros Hab Hbc.
    apply Z.leb_le in Hab. apply Z.leb_le in Hbc. apply Z.leb_le. lia.
Qed.

(** Two rows that may each come before the other have the same [id]. *)
Lemma precedes_antisym (a b : row) : before a b -> before b a -> id a = id b.
Proof.
  unfold before, precedes.
  destruct (rating a) as [x|], (rating b) as [y|]; try congruence.
  - rewrite (float8_compare_antisym x y).
    destruct (float8_compare x y); simpl; try congruence.
    intros H1 H2. apply Z.leb_le in H1. apply Z.leb_le in H2. lia.
  - intros H1 H2. apply Z.leb_le in H1. apply Z.leb_le in H2. lia.
Qed.

Lemma insert_sorted_perm (r : row) (l : list row) :
  Permutation (r :: l) (insert_sorted r l).
Proof.
  induction l as [|x l IH]; simpl.
  - apply Permutation_refl.
  - destruct (precedes r x).
    + apply Permutation_refl.
    + apply perm_trans with (x :: r :: l).
      * apply perm_swap.
      * apply perm_skip. exact IH.
Qed.

Lemma order_by_perm (l : list row) : Permutation l (order_by l).
Proof.
  induction l as [|r l IH]; simpl.
  - apply perm_nil.
  - apply perm_trans with (r :: order_by l).
    + apply perm_skip. exact IH.
    + apply insert_sorted_perm.
Qed.

Lemma insert_sorted_strongly (r : row) (l : list row) :
  StronglySorted before l -> StronglySorted before (insert_sorted r l).
Proof.
  induction l as [|x l IH]; simpl; intros Hs.
  - constructor; [constructor | constructor].
  - destruct (precedes r x) eqn:E.
    + constructor; [exact Hs|].
      constructor; [exact E|].
      inversion Hs as [|? ? _ Hall]; subst.
      eapply Forall_impl; [|exact Hall].
      intros y Hy. apply (precedes_trans r x y); assumption.
    + inversion Hs as [|? ? Hs' Hall]; subst.
      constructor; [apply IH; exact Hs'|].
      apply Forall_forall. intros y Hy.
      apply (Permutation_in _ (Permutation_sym (insert_sorted_perm r l))) in Hy.
      destruct Hy as [<-|Hy].
      * apply precedes_total. exact E.
      * rewrite Forall_forall in Hall. apply Hall. exact Hy.
Qed.

Lemma order_by_sorted (l : list row) : StronglySorted before (order_by l).
Proof.
  induction l as [|r l IH]; simpl.
  - constructor.
  - apply insert_sorted_strongly. exact IH.
Qed.

Lemma StronglySorted_skipn (n : nat) (l : list row) :
  StronglySorted before l -> StronglySorted before (skipn n l).
Proof.
  revert l. induction n as [|n IH]; intros l Hs; simpl; [exact Hs|].
  destruct l as [|x l]; [constructor|].
  inversion Hs; subst. apply IH. assumption.
Qed.

Lemma StronglySorted_firstn (n : nat) (l : list row) :
  StronglySorted before l -> StronglySorted before (firstn n l).
Proof.
  revert l. induction n as [|n IH]; intros l Hs; simpl; [constructor|].
  destruct l as [|x l]; [constructor|].
  inversion Hs as [|? ? Hs' Hall]; subst.
  constructor; [apply IH; exact Hs'|].
  apply Forall_forall. intros y Hy.
  rewrite Forall_forall in Hall. apply Hall.
  rewrite <- (firstn_skipn n l). apply in_or_app. left. exact Hy.
Qed.

End OrderFacts.

(** ** Binding and running a statement *)

Module StoreFacts.

Lemma bind_inr {A B : Type} (r : result A) (k : A -> result B) (b : B) :
  bind r k = inr b -> exists a, r = inr a /\ k a = inr b.
Proof.
  destruct r as [e|a]; simpl; intros H; [discriminate|].
  exists a. split; [reflexivity | exact H].
Qed.

Lemma scan_nil (t : table) : scan [] t = inr t.
Proof.
  induction t as [|r t IH]; simpl; [reflexivity|].
  rewrite IH. reflexivity.
Qed.

(** The rows that a scan keeps are rows of the table, in the order of the
    table. *)
Lemma scan_filter (bs : list bound) (t : table) (kept : list row) :
  scan bs t = inr kept ->
  kept = filter (fun r => match row_matches bs r with
                          | inr true => true
                          | _ => false
                          end) t.
Proof.
  revert kept. induction t as [|r t IH]; simpl; intros kept H.
  - inversion H. reflexivity.
  - apply bind_inr in H. destruct H as [keep [Hk H]].
    apply bind_inr in H. destruct H as [rest [Hr H]].
    inversion H; subst. rewrite Hk, <- (IH rest Hr).
    destruct keep; reflexivity.
Qed.

(** An error on one row ends the scan of the whole table. *)
Lemma scan_error (bs : list bound) (t : table) (r : row) (e : error) :
  In r t -> row_matches bs r = inl e -> exists e', scan bs t = inl e'.
Proof.
  induction t as [|x t IH]; simpl; intros Hin He; [contradiction|].
  destruct Hin as [->|Hin].
  - rewrite He. simpl. eauto.
  - destruct (row_matches bs x) as [e0|keep]; simpl; [eauto|].
    destruct (IH Hin He) as [e' ->]. simpl. eauto.
Qed.

Lemma where_rows_filter (cs : list condition) (ps : list param) (t : table)
    (kept : list row) :
  where_rows cs ps t = inr kept ->
  exists f, kept = filter f t.
Proof.
  unfold where_rows. intros H.
  apply bind_inr in H. destruct H as [bs [_ H]].
  eexists. apply (scan_filter bs t kept H).
Qed.

Lemma placeholder_le_max (c : condition) (cs : list condition) :
  In c cs -> (placeholder_of c <= max_placeholder cs)%nat.
Proof.
  induction cs as [|x cs IH]; simpl; [tauto|].
  intros [->|H]; [lia|]. specialize (IH H). lia.
Qed.

Lemma parameter_app (ps extra : list param) (n : nat) :
  (n <= List.length ps)%nat ->
  parameter (ps ++ extra) n = parameter ps n.
Proof.
  intros Hn. destruct n as [|i]; simpl; [reflexivity|].
  rewrite nth_error_app1 by lia. reflexivity.
Qed.

Lemma bind_condition_app (ps extra : list param) (c : condition) :
  (placeholder_of c <= List.length ps)%nat ->
  bind_condition (ps ++ extra) c = bind_condition ps c.
Proof.
  intros Hn. destruct c as [col n|o n|col o n]; simpl in *;
    rewrite parameter_app by assumption; reflexivity.
Qed.

(** Parameters that follow those of the conditions do not change what the
    conditions are bound to. *)
Lemma bind_conditions_app (ps extra : list param) (cs : list condition) :
  (max_placeholder cs <= List.length ps)%nat ->
  bind_conditions (ps ++ extra) cs = bind_conditions ps cs.
Proof.
  induction cs as [|c cs IH]; simpl; intros Hm; [reflexivity|].
  rewrite bind_condition_app by lia.
  rewrite IH by lia. reflexivity.
Qed.

Lemma where_rows_app (ps extra : list param) (cs : list condition) (t : table) :
  (max_placeholder cs <= List.length ps)%nat ->
  where_rows cs (ps ++ extra) t = where_rows cs ps t.
Proof.
  intros Hm. unfold where_rows. rewrite bind_conditions_app by assumption.
  reflexivity.
Qed.

Lemma check_count_inr (needed : nat) (ps : list param) (u : unit) :
  check_count needed ps = inr u -> List.length ps = needed.
Proof.
  unfold check_count. destruct (Nat.eqb_spec (List.length ps) needed); simpl;
    [tauto | discriminate].
Qed.

(** A number that is NaN or an integer is accepted as [LIMIT] or [OFFSET]
    only when it is an integer that is not negative. *)
Lemma bind_count_integer (ps : list param) (n k : nat) (x : number) :
  parameter ps n = inr (PNum x) ->
  (x = NaN \/ exists z, x = Fin z 0) ->
  bind_count ps n = inr k ->
  exists z, x = Fin z 0 /\ 0 <= z /\ k = Z.to_nat z.
Proof.
  intros Hp Hx. unfold bind_count. rewrite Hp. simpl.
  destruct Hx as [->|[z ->]]; simpl; [discriminate|].
  destruct (in_int8 z); simpl; [|discriminate].
  destruct (Z.ltb_spec z 0) as [Hlt|Hge]; [discriminate|].
  intros H. inversion H. exists z. repeat split. exact Hge.
Qed.

Lemma select_page_inr (t : table) (cs : list condition) (l o : nat)
    (ps : list param) (found : list row) :
  select_page t cs l o ps = inr found ->
  exists lim off matched,
    List.length ps = Nat.max (max_placeholder cs) (Nat.max l o) /\
    bind_count ps l = inr lim /\ bind_count ps o = inr off /\
    where_rows cs ps t = inr matched /\
    found = firstn lim (skipn off (order_by matched)).
Proof.
  unfold select_page. intros H.
  apply bind_inr in H. destruct H as [u [Hc H]].
  apply bind_inr in H. destruct H as [lim [Hl H]].
  apply bind_inr in H. destruct H as [off [Ho H]].
  apply bind_inr in H. destruct H as [matched [Hm H]].
  inversion H; subst.
  exists lim, off, matched. repeat split; try assumption.
  apply (check_count_inr _ _ u Hc).
Qed.

Lemma select_count_inr (t : table) (cs : list condition) (ps : list param)
    (n : Z) :
  select_count t cs ps = inr n ->
  exists matched,
    List.length ps = max_placeholder cs /\
    where_rows cs ps t = inr matched /\ n = Z.of_nat (List.length matched).
Proof.
  unfold select_count. intros H.
  apply bind_inr in H. destruct H as [u [Hc H]].
  apply bind_inr in H. destruct H as [matched [Hm H]].
  inversion H; subst. exists matched. repeat split; try assumption.
  apply (check_count_inr _ _ u Hc).
Qed.

End StoreFacts.

(** ** Pagination and the filters *)

Module ServerFacts.

Import StoreFacts OrderFacts.

Lemma parseInt_string_integral (s : string) : integral (parseInt_string s).
Proof.
  unfold parseInt_string, integral.
  match goal with |- context [let '(a, b) := ?X in _] => destruct X as [sgn u] end.
  match goal with |- context [let '(a, b) := ?X in _] => destruct X as [radix body] end.
  destruct (radix_value radix None body) as [v|]; [right; eauto | left; reflexivity].
Qed.

Lemma parseInt_integral (v : value) : integral (parseInt v).
Proof. apply parseInt_string_integral. Qed.

Lemma pow10_0 : pow10 0 = 1.
Proof. reflexivity. Qed.

(** [(page - 1) * limit] on integers. *)
Lemma offset_integer (p l : Z) :
  mul (sub (Fin p 0) (Fin 1 0)) (Fin l 0) = Fin ((p - 1) * l) 0.
Proof.
  unfold mul, sub. simpl Nat.max. simpl Nat.sub. simpl strip.
  rewrite pow10_0. simpl Nat.add. simpl strip. f_equal. ring.
Qed.

Lemma offset_integral (x y : number) :
  integral x -> integral y -> integral (mul (sub x (Fin 1 0)) y).
Proof.
  intros [->|[p ->]] [->|[l ->]]; try (left; reflexivity).
  right. rewrite offset_integer. eauto.
Qed.

Lemma offset_fin (x : number) (l o : Z) :
  integral x -> mul (sub x (Fin 1 0)) (Fin l 0) = Fin o 0 ->
  exists p, x = Fin p 0 /\ o = (p - 1) * l.
Proof.
  intros [->|[p ->]] H; [discriminate|].
  rewrite offset_integer in H. inversion H. eauto.
Qed.

Lemma or_else_integral (x d : number) :
  integral x -> integral d -> integral (JsNumber.or_else x d).
Proof. intros Hx Hd. unfold JsNumber.or_else. destruct (JsNumber.truthy x); assumption. Qed.

Lemma min_50 (z : Z) : JsNumber.min (Fin z 0) (Fin 50 0) = Fin (Z.min z 50) 0.
Proof.
  unfold JsNumber.min, JsNumber.compare. rewrite pow10_0, !Z.mul_1_r.
  unfold Z.min. destruct (z ?= 50); reflexivity.
Qed.

Lemma min_50_integral (x : number) : integral x -> integral (JsNumber.min x (Fin 50 0)).
Proof.
  intros [->|[z ->]]; [left; reflexivity|]. right. rewrite min_50. eauto.
Qed.

Lemma list_page_integral (q : list_query) : integral (list_page q).
Proof.
  apply or_else_integral; [apply parseInt_integral | right; eauto].
Qed.

Lemma list_limit_integral (q : list_query) : integral (list_limit q).
Proof.
  apply min_50_integral, or_else_integral; [apply parseInt_integral | right; eauto].
Qed.

Lemma search_page_integral (q : search_query) : integral (search_page q).
Proof. apply parseInt_integral. Qed.

Lemma search_limit_integral (q : search_query) : integral (search_limit q).
Proof. apply min_50_integral, parseInt_integral. Qed.

(** A 200 reply of the listing. *)
Lemma list_recipes_ok (t : table) (q : list_query) (r : response) :
  list_recipes t q = Ok200 r ->
  exists p l,
    page r = Fin p 0 /\ limit r = Fin l 0 /\ 0 <= l /\ 0 <= (p - 1) * l /\
    total r = Z.of_nat (List.length t) /\ data r = page_of p l t.
Proof.
  unfold list_recipes.
  destruct (bind (select_count t [] []) _) as [e|r'] eqn:E; [discriminate|].
  intros H. inversion H; subst r'. clear H.
  apply bind_inr in E. destruct E as [n [Hn E]].
  apply bind_inr in E. destruct E as [found [Hf E]].
  inversion E; subst r. clear E. simpl.
  apply select_count_inr in Hn. destruct Hn as [m [_ [Hm ->]]].
  unfold where_rows in Hm. simpl in Hm. rewrite scan_nil in Hm.
  inversion Hm; subst m. clear Hm.
  apply select_page_inr in Hf.
  destruct Hf as [lim [off [matched [_ [Hl [Ho [Hm ->]]]]]]].
  unfold where_rows in Hm. simpl in Hm. rewrite scan_nil in Hm.
  inversion Hm; subst matched. clear Hm.
  set (ps := [PNum (list_limit q); PNum (list_offset q)]) in *.
  destruct (bind_count_integer ps 1 lim (list_limit q) eq_refl
              (list_limit_integral q) Hl) as [l [El [Hl0 ->]]].
  destruct (bind_count_integer ps 2 off (list_offset q) eq_refl
              (offset_integral _ _ (list_page_integral q) (list_limit_integral q))
              Ho) as [o [Eo [Ho0 ->]]].
  unfold list_offset in Eo. rewrite El in Eo.
  destruct (offset_fin _ _ _ (list_page_integral q) Eo) as [p [Ep ->]].
  exists p, l. repeat split; assumption.
Qed.

(** *** The numbering of the placeholders *)

Lemma max_placeholder_app (cs : list condition) (c : condition) :
  max_placeholder (cs ++ [c])%list = Nat.max (max_placeholder cs) (placeholder_of c).
Proof.
  induction cs as [|x cs IH]; simpl; [lia|]. rewrite IH. lia.
Qed.

Lemma push_aligned (b : builder) (c : condition) (p : param) :
  aligned b -> placeholder_of c = S (paramCount b) ->
  aligned (mkBuilder (whereConditions b ++ [c])%list
                     (queryParams b ++ [p])%list (S (paramCount b))).
Proof.
  unfold aligned, well_numbered. simpl. intros [Hc Hw] Hp.
  rewrite max_placeholder_app, length_app, Hp, Hw, Hc. simpl. lia.
Qed.

Lemma add_text_aligned (c : text_column) (f : option string) (b : builder) :
  aligned b -> aligned (add_text c f b).
Proof.
  intros Hb. unfold add_text. destruct (given f); [|exact Hb].
  apply push_aligned; [exact Hb | reflexivity].
Qed.

Lemma add_rating_aligned (f : option string) (b : builder) :
  aligned b -> aligned (add_rating f b).
Proof.
  intros Hb. unfold add_rating. destruct (given f) as [s|]; [|exact Hb].
  destruct (operator_prefix s). apply push_aligned; [exact Hb | reflexivity].
Qed.

Lemma add_total_time_aligned (f : option string) (b : builder) :
  aligned b -> aligned (add_total_time f b).
Proof.
  intros Hb. unfold add_total_time. destruct (given f) as [s|]; [|exact Hb].
  destruct (operator_prefix s). apply push_aligned; [exact Hb | reflexivity].
Qed.

(** After the calories filter the conditions are still well numbered, but
    [paramCount] may be one ahead of the parameters. *)
Lemma add_calories_numbered (f : option string) (b : builder) :
  aligned b ->
  well_numbered (add_calories f b) /\
  (paramCount (add_calories f b) = List.length (queryParams (add_calories f b)) \/
   paramCount (add_calories f b) = S (List.length (queryParams (add_calories f b)))).
Proof.
  intros Hb. unfold add_calories. destruct (given f) as [s|].
  - destruct (first_digit_run s) as [d|].
    + destruct (push_aligned b (IntCompare Calories (fst (operator_prefix s))
                                  (S (paramCount b)))
                  (PNum (parseInt_string d)) Hb eq_refl) as [H1 H2].
      split; [exact H2 | left; exact H1].
    + destruct Hb as [H1 H2]. split; [exact H2|]. right. simpl. rewrite H1. reflexivity.
  - destruct Hb as [H1 H2]. split; [exact H2 | left; exact H1].
Qed.

Lemma build_filters_numbered (q : search_query) :
  well_numbered (build_filters q) /\
  (paramCount (build_filters q) = List.length (queryParams (build_filters q)) \/
   paramCount (build_filters q) = S (List.length (queryParams (build_filters q)))).
Proof.
  unfold build_filters.
  apply add_calories_numbered, add_total_time_aligned, add_rating_aligned,
    add_text_aligned, add_text_aligned.
  split; reflexivity.
Qed.

Lemma slice_pushed {A : Type} (a : list A) (x y : A) :
  slice_0_minus2 (a ++ [x] ++ [y])%list = a.
Proof.
  unfold slice_0_minus2. rewrite length_app. simpl.
  replace (List.length a + 2 - 2)%nat with (List.length a + 0)%nat by lia.
  rewrite firstn_app_2. simpl. apply app_nil_r.
Qed.

Lemma parameter_limit (ps : list param) (x y : param) :
  parameter (ps ++ [x] ++ [y])%list (S (List.length ps)) = inr x.
Proof.
  unfold parameter. rewrite nth_error_app2 by lia. rewrite Nat.sub_diag. reflexivity.
Qed.

Lemma parameter_offset (ps : list param) (x y : param) :
  parameter (ps ++ [x] ++ [y])%list (S (S (List.length ps))) = inr y.
Proof.
  unfold parameter. rewrite nth_error_app2 by lia.
  replace (S (List.length ps) - List.length ps)%nat with 1%nat by lia. reflexivity.
Qed.

(** A 200 reply of the search: the placeholders were numbered in step with
    the parameters, and the rows and the count come from the same rows
    [matched]. *)
Lemma search_recipes_ok (t : table) (q : search_query) (r : response) :
  search_recipes t q = Ok200 r ->
  exists p l matched,
    page r = Fin p 0 /\ limit r = Fin l 0 /\ 0 <= l /\ 0 <= (p - 1) * l /\
    paramCount (build_filters q) = List.length (queryParams (build_filters q)) /\
    where_rows (whereConditions (build_filters q))
               (queryParams (build_filters q)) t = inr matched /\
    total r = Z.of_nat (List.length matched) /\ data r = page_of p l matched.
Proof.
  unfold search_recipes.
  destruct (build_filters_numbered q) as [Hw Hpc].
  set (b := build_filters q) in *.
  set (ps := (queryParams b ++ [PNum (search_limit q)] ++ [PNum (search_offset q)])%list).
  destruct (bind (select_page t _ _ _ ps) _) as [e|r'] eqn:E; [discriminate|].
  intros H. inversion H; subst r'. clear H.
  apply bind_inr in E. destruct E as [found [Hf E]].
  apply bind_inr in E. destruct E as [n [Hn E]].
  inversion E; subst r. clear E. simpl.
  apply select_page_inr in Hf.
  destruct Hf as [lim [off [matched [Hlen [Hl [Ho [Hm ->]]]]]]].
  assert (Hal : paramCount b = List.length (queryParams b)).
  { unfold ps in Hlen. rewrite !length_app in Hlen. simpl in Hlen.
    unfold well_numbered in Hw. lia. }
  rewrite Hal in Hl, Ho.
  destruct (bind_count_integer ps _ lim (search_limit q)
              (parameter_limit _ _ _) (search_limit_integral q) Hl)
    as [l [El [Hl0 ->]]].
  destruct (bind_count_integer ps _ off (search_offset q)
              (parameter_offset _ _ _)
              (offset_integral _ _ (search_page_integral q) (search_limit_integral q))
              Ho) as [o [Eo [Ho0 ->]]].
  unfold search_offset in Eo. rewrite El in Eo.
  destruct (offset_fin _ _ _ (search_page_integral q) Eo) as [p [Ep ->]].
  unfold ps in Hm. rewrite where_rows_app in Hm by (unfold well_numbered in Hw; lia).
  apply select_count_inr in Hn. destruct Hn as [m [_ [Hm' ->]]].
  unfold ps in Hm'. rewrite slice_pushed in Hm'.
  rewrite Hm in Hm'. inversion Hm'; subst m.
  exists p, l, matched. repeat split; assumption.
Qed.

End ServerFacts.

(** ** Pages of one query *)

Module PageFacts.

Import StoreFacts OrderFacts ServerFacts.

Lemma nodup_app_disjoint {A : Type} (l1 l2 : list A) (x : A) :
  NoDup (l1 ++ l2)%list -> In x l1 -> In x l2 -> False.
Proof.
  induction l1 as [|y l1 IH]; simpl; intros Hnd H1 H2; [exact H1|].
  apply NoDup_cons_iff in Hnd. destruct Hnd as [Hy Hnd].
  destruct H1 as [->|H1].
  - apply Hy. apply in_or_app. right. exact H2.
  - exact (IH Hnd H1 H2).
Qed.

Lemma in_firstn_in {A : Type} (n : nat) (l : list A) (x : A) :
  In x (firstn n l) -> In x l.
Proof.
  intros H. rewrite <- (firstn_skipn n l). apply in_or_app. left. exact H.
Qed.

Lemma in_skipn_in {A : Type} (n : nat) (l : list A) (x : A) :
  In x (skipn n l) -> In x l.
Proof.
  intros H. rewrite <- (firstn_skipn n l). apply in_or_app. right. exact H.
Qed.

(** A slice that ends at or before position [m] lies in the first [m]
    elements. *)
Lemma in_slice_before {A : Type} (n o m : nat) (l : list A) (x : A) :
  (o + n <= m)%nat -> In x (firstn n (skipn o l)) -> In x (firstn m l).
Proof.
  intros Hm H. rewrite firstn_skipn_comm in H. apply in_skipn_in in H.
  replace (firstn (o + n) l) with (firstn (o + n) (firstn m l)) in H.
  - exact (in_firstn_in _ _ _ H).
  - rewrite firstn_firstn. f_equal. lia.
Qed.

Lemma slices_disjoint (l : list row) (n1 n2 o1 o2 : nat) (a b : row) :
  NoDup (map id l) -> (o1 + n1 <= o2)%nat ->
  In a (firstn n1 (skipn o1 l)) -> In b (firstn n2 (skipn o2 l)) ->
  id a <> id b.
Proof.
  intros Hnd Ho Ha Hb Heq.
  apply (in_slice_before n1 o1 o2) in Ha; [|exact Ho].
  apply in_firstn_in in Hb.
  rewrite <- (firstn_skipn o2 l), map_app in Hnd.
  apply (nodup_app_disjoint _ _ (id a) Hnd).
  - apply in_map. exact Ha.
  - rewrite Heq. apply in_map. exact Hb.
Qed.

Lemma nodup_ids_filter (f : row -> bool) (t : table) :
  NoDup (map id t) -> NoDup (map id (filter f t)).
Proof.
  induction t as [|r t IH]; simpl; intros Hnd; [constructor|].
  apply NoDup_cons_iff in Hnd. destruct Hnd as [Hr Hnd].
  destruct (f r); simpl; [|exact (IH Hnd)].
  constructor; [|exact (IH Hnd)].
  intros Hin. apply Hr. apply in_map_iff in Hin.
  destruct Hin as [x [Hx Hin]]. apply filter_In in Hin.
  rewrite <- Hx. apply in_map. tauto.
Qed.

Lemma nodup_ids_order_by (l : list row) :
  NoDup (map id l) -> NoDup (map id (order_by l)).
Proof.
  intros Hnd. eapply Permutation_NoDup; [|exact Hnd].
  apply Permutation_map, order_by_perm.
Qed.

Lemma page_of_sorted (p l : Z) (matched : list row) :
  StronglySorted before (page_of p l matched).
Proof.
  unfold page_of. apply StronglySorted_firstn, StronglySorted_skipn, order_by_sorted.
Qed.

(** Two different pages of the same rows and the same page size share no
    [id]. *)
Lemma pages_disjoint (matched : list row) (p1 p2 l : Z) (a b : row) :
  NoDup (map id matched) -> 0 <= l -> 0 <= (p1 - 1) * l -> 0 <= (p2 - 1) * l ->
  p1 <> p2 ->
  In a (page_of p1 l matched) -> In b (page_of p2 l matched) -> id a <> id b.
Proof.
  intros Hnd Hl H1 H2 Hp Ha Hb.
  apply nodup_ids_order_by in Hnd.
  destruct (Z.eq_dec l 0) as [->|Hl0]; [destruct Ha|].
  assert (1 <= p1) by nia. assert (1 <= p2) by nia.
  unfold page_of in Ha, Hb.
  destruct (Z.lt_trichotomy p1 p2) as [Hlt|[Heq|Hgt]]; [|contradiction|].
  - apply (slices_disjoint _ _ _ _ _ a b Hnd) with (3 := Hb) (2 := Ha).
    assert ((p1 - 1) * l + l <= (p2 - 1) * l) by nia. lia.
  - intros Heq. symmetry in Heq. revert Heq.
    apply (slices_disjoint _ _ _ _ _ b a Hnd) with (3 := Ha) (2 := Hb).
    assert ((p2 - 1) * l + l <= (p1 - 1) * l) by nia. lia.
Qed.

Lemma same_filters_selected (t : table) (req1 req2 : request) :
  same_filters req1 req2 -> selected t req1 = selected t req2.
Proof.
  destruct req1 as [q1|q1], req2 as [q2|q2]; simpl; try tauto.
  intros (H1 & H2 & H3 & H4 & H5).
  unfold build_filters. rewrite H1, H2, H3, H4, H5. reflexivity.
Qed.

Lemma handle_ok (t : table) (req : request) (r : response) :
  handle t req = Ok200 r ->
  exists p l matched,
    page r = Fin p 0 /\ limit r = Fin l 0 /\ 0 <= l /\ 0 <= (p - 1) * l /\
    selected t req = inr matched /\ data r = page_of p l matched.
Proof.
  destruct req as [q|q]; simpl; intros H.
  - apply list_recipes_ok in H.
    destruct H as (p & l & Hp & Hl & Hl0 & Ho & _ & Hd).
    exists p, l, t. repeat split; assumption.
  - apply search_recipes_ok in H.
    destruct H as (p & l & m & Hp & Hl & Hl0 & Ho & _ & Hm & _ & Hd).
    exists p, l, m. repeat split; assumption.
Qed.

Lemma selected_nodup (t : table) (req : request) (matched : list row) :
  NoDup (map id t) -> selected t req = inr matched -> NoDup (map id matched).
Proof.
  intros Hnd. destruct req as [q|q]; simpl; intros H.
  - inversion H; subst. exact Hnd.
  - apply where_rows_filter in H. destruct H as [f ->].
    apply nodup_ids_filter. exact Hnd.
Qed.

End PageFacts.

(** ** The loader *)

Module LoaderFacts.

Import StoreFacts.

Lemma or_else_null_not_empty (v : value) : JsValue.or_else v VNull <> VStr "".
Proof.
  unfold JsValue.or_else. destruct v as [| |b|n|s|l|ps]; simpl; try discriminate.
  - destruct b; discriminate.
  - destruct (JsNumber.truthy n); discriminate.
  - destruct s; simpl; discriminate.
Qed.

Lemma get_field (recipe : value) (k : string) (v : value) :
  get recipe k = Some v ->
  forall k', exists v', get recipe k' = Some v'.
Proof.
  destruct recipe; simpl; try discriminate; eauto.
Qed.

(** The parameter of a text field is [recipe.field || null]. *)
Lemma field_param_or_else (f : text_field) (recipe : value) (p : insert_params) :
  recipe_params recipe = Some p ->
  exists raw, get recipe (field_name f) = Some raw /\
              field_param f p = JsValue.or_else raw VNull.
Proof.
  unfold recipe_params.
  destruct (get recipe "rating"); [|discriminate].
  destruct (get recipe "prep_time"); [|discriminate].
  destruct (get recipe "cook_time"); [|discriminate].
  destruct (get recipe "total_time"); [|discriminate].
  destruct (get recipe "nutrients"); [|discriminate].
  destruct (get recipe "cuisine") as [cui|] eqn:Ec; [|discriminate].
  destruct (get recipe "title") as [tit|] eqn:Et; [|discriminate].
  destruct (get recipe "description") as [descr|] eqn:Ed; [|discriminate].
  destruct (get recipe "serves") as [srv|] eqn:Es; [|discriminate].
  intros H. inversion H; subst p. clear H.
  destruct f; simpl; eauto.
Qed.

Section Driver.

Variable composite_text : value -> string.

Lemma varchar_none (n : nat) : varchar n None = inr None.
Proof. reflexivity. Qed.

(** The row that an accepted [INSERT] appends. *)
Lemma insert_appends (db db' : database) (p : insert_params) :
  insert composite_text db p = inr db' ->
  exists r, rows db' = (rows db ++ [r])%list /\ id r = last_id db + 1 /\
            rating r = p_rating p /\
            nutrients r = Some (jsonb_cell (p_nutrients p)) /\
            forall f, field_param f p = VNull -> field_cell f r = None.
Proof.
  unfold insert. intros H.
  apply bind_inr in H. destruct H as [c [Hc H]].
  apply bind_inr in H. destruct H as [t [Ht H]].
  apply bind_inr in H. destruct H as [prep [_ H]].
  apply bind_inr in H. destruct H as [cook [_ H]].
  apply bind_inr in H. destruct H as [tot [_ H]].
  apply bind_inr in H. destruct H as [s [Hs H]].
  inversion H; subst db'. clear H. simpl.
  eexists. split; [reflexivity|]. simpl. repeat split.
  intros f Hf. destruct f; simpl in Hf; rewrite Hf in *; cbv in Hc, Ht, Hs;
    simpl; congruence.
Qed.

(** The table grows by exactly the rows counted in [insertedCount]. *)
Lemma insert_all_count (recipes : list value) (db : database) (n : Z) :
  Z.of_nat (List.length (rows (fst (insert_all composite_text recipes db n)))) - 
  snd (insert_all composite_text recipes db n)
  = Z.of_nat (List.length (rows db)) - n.
Proof.
  revert db n. induction recipes as [|recipe rest IH]; intros db n; simpl;
    [reflexivity|].
  destruct (recipe_params recipe) as [p|]; [|reflexivity].
  destruct (insert composite_text db p) as [e|db'] eqn:E.
  - apply IH.
  - rewrite IH. destruct (insert_appends db db' p E) as [r [Hr _]].
    rewrite Hr, length_app. simpl. lia.
Qed.

End Driver.

(** No entry of a cleaned nutrients object is the string ["NaN"]. *)
Lemma clean_nutrients_no_NaN (raw : value) (props : list (string * value))
    (k : string) (v : value) :
  clean_nutrients raw = VObj props -> In (k, v) props -> v <> VStr "NaN".
Proof.
  unfold clean_nutrients.
  destruct (typeof_object (JsValue.or_else raw (VObj []))) eqn:Et.
  - destruct (JsValue.or_else raw (VObj [])) as [| |b|n|s|l|ps];
      try discriminate.
    intros H Hin. inversion H; subst props. clear H.
    apply filter_In in Hin. destruct Hin as [_ Hv]. simpl in Hv.
    intros ->. discriminate.
  - intros H. rewrite H in Et. discriminate.
Qed.

(** A sanitised numeric field that went through the NaN test of the
    loader is [null] when the raw value is the string ["NaN"] or when
    ToNumber fails on it. *)
Lemma sanitize_float_null (x : value) :
  isNaN x = true \/ x = VStr "NaN" -> sanitize_float x = None.
Proof.
  unfold sanitize_float. intros [->| ->]; reflexivity.
Qed.

End LoaderFacts.

(** * The claims *)

Import StoreFacts OrderFacts ServerFacts PageFacts LoaderFacts.

(** The direct binding of a number to an integer placeholder agrees with
    reading its text on these samples. *)
Example integer_binding_samples :
  map (fun n => match int4_of_text (number_toString n), int4_of_number n with
                | inr a, inr b => a =? b
                | inl _, inl _ => true
                | _, _ => false
                end)
      [Fin 60 0; NaN; Inf false; Fin 15 1; Fin 0 0; Fin (-7) 0; Fin 50 1;
       mk_dec 3 9; mk_dec 1 21]
  = [true; true; true; true; true; true; true; true; true].
Proof. vm_compute. reflexivity. Qed.

(** The scenario [title=pie&rating=>=4.5] of the search. *)
Example search_pie_scenario :
  match search_recipes Sample.recipes
          (mkSearchQuery None (Some "pie") None None (Some ">=4.5") None None) with
  | Ok200 r => (total r, map id (data r))
  | Err500 => (-1, [])
  end = (1, [1]).
Proof. vm_compute. reflexivity. Qed.

(** With no filter and no pagination parameter the search answers as the
    listing does. *)
Lemma search_without_filter_is_listing (t : table) :
  search_recipes t Sample.no_filter = list_recipes t (mkListQuery None None).
Proof.
  unfold search_recipes, list_recipes, select_page, select_count, where_rows.
  simpl. rewrite scan_nil. reflexivity.
Qed.

(** C1.  An unparseable filter value is not excluded from the predicate:
    [rating=abc] leaves the condition [rating = $1] bound to NaN, so that
    the search selects no row of a table whose ratings are numbers, and
    [total_time=abc] binds NaN to an integer placeholder, which ends the
    request with a 500 on every table. *)
Theorem unparseable_filter_stays_in_predicate :
  build_filters (Sample.with_rating "abc")
    = mkBuilder [RatingCompare Eq 1] [PNum NaN] 1 /\
  (exists r, search_recipes Sample.recipes (Sample.with_rating "abc") = Ok200 r /\
             total r = 0 /\ data r = []) /\
  (exists r, search_recipes Sample.recipes Sample.no_filter = Ok200 r /\
             total r = 5) /\
  (forall t, search_recipes t (Sample.with_total_time "abc") = Err500).
Proof.
  split; [reflexivity|]. split; [|split].
  - eexists. split; [vm_compute; reflexivity|]. split; reflexivity.
  - eexists. split; [vm_compute; reflexivity|]. reflexivity.
  - intros t. reflexivity.
Qed.

(** Whatever else the table holds, one row whose calories text carries a
    unit makes the search [calories=<=400] fail. *)
Lemma calories_search_fails_on_unit_text (t : table) :
  In Sample.kcal_389 t ->
  search_recipes t (Sample.with_calories "<=400") = Err500.
Proof.
  intros Hin. unfold search_recipes, select_page, where_rows. simpl.
  destruct (scan_error [BInt Calories Le 400] t Sample.kcal_389 InvalidInput Hin
              eq_refl) as [e ->].
  reflexivity.
Qed.

(** C2.  The digits are taken from the filter value, not from the stored
    string: the stored text is cast to an integer as it is.  On a table
    that holds a row with calories ["389 kcal"] the search [calories=<=400]
    ends with a 500, with or without the row of ["450 kcal"]. *)
Theorem calories_filter_casts_stored_text :
  build_filters (Sample.with_calories "<=400")
    = mkBuilder [IntCompare Calories Le 1] [PNum (Fin 400 0)] 1 /\
  calories_of (nutrients Sample.kcal_389) = inl InvalidInput /\
  search_recipes [Sample.kcal_389] (Sample.with_calories "<=400") = Err500 /\
  search_recipes [Sample.kcal_389; Sample.kcal_450] (Sample.with_calories "<=400")
    = Err500 /\
  search_recipes [Sample.kcal_450] (Sample.with_calories "<=400") = Err500.
Proof. repeat split; vm_compute; reflexivity. Qed.

(** Every nutrient whose value is a string that ToNumber cannot read is
    deleted, whatever the string. *)
Lemma non_numeric_nutrient_is_deleted (k s : string)
    (rest : list (string * value)) :
  string_toNumber s = NaN ->
  clean_nutrients (VObj ((k, VStr s) :: rest)) = clean_nutrients (VObj rest).
Proof.
  intros Hs. unfold clean_nutrients. simpl.
  unfold is_nan_entry at 1. unfold isNaN. simpl. rewrite Hs. simpl.
  rewrite orb_true_r. reflexivity.
Qed.

(** C3.  The loader deletes a nutrient whose value carries a unit:
    [isNaN("389 kcal")] is true.  The recipe of [file_with_units] is
    stored with an empty nutrients object. *)
Theorem unit_suffixed_nutrient_is_deleted :
  isNaN (VStr "389 kcal") = true /\
  clean_nutrients (VObj [("calories", VStr "389 kcal");
                         ("proteinContent", VStr "5 g")]) = VObj [] /\
  forall composite_text,
    map nutrients
        (rows (fst (parseAndInsertRecipes composite_text
                      (Some Sample.file_with_units) Sample.empty_db)))
    = [Some (VObj [])].
Proof.
  split; [vm_compute; reflexivity|]. split; [vm_compute; reflexivity|].
  intros composite_text. vm_compute. reflexivity.
Qed.

(** C4.  A calories value without a digit adds no condition but has
    already incremented [paramCount]: [LIMIT] and [OFFSET] are numbered one
    too high for the parameters sent, and the request ends with a 500 on
    every table, where the same request without [calories] succeeds. *)
Theorem calories_without_digit_fails :
  build_filters (Sample.with_calories "abc") = mkBuilder [] [] 1 /\
  (forall t, search_recipes t (Sample.with_calories "abc") = Err500) /\
  (exists r, search_recipes Sample.recipes Sample.no_filter = Ok200 r).
Proof.
  split; [reflexivity|]. split.
  - intros t. reflexivity.
  - eexists. vm_compute. reflexivity.
Qed.

(** C5.  The listing replaces an invalid [page] by 1 and an invalid [limit]
    by 10; the search does not: its page and limit are NaN and the request
    ends with a 500 on every table. *)
Theorem search_has_no_fallback_for_invalid_page :
  list_page (mkListQuery (Some "abc") None) = Fin 1 0 /\
  list_limit (mkListQuery None (Some "abc")) = Fin 10 0 /\
  search_page (Sample.with_page "abc") = NaN /\
  search_limit (Sample.with_limit "abc") = NaN /\
  (forall t, search_recipes t (Sample.with_page "abc") = Err500) /\
  (forall t, search_recipes t (Sample.with_limit "abc") = Err500) /\
  (exists r, list_recipes Sample.recipes (mkListQuery (Some "abc") (Some "abc"))
             = Ok200 r /\ page r = Fin 1 0 /\ limit r = Fin 10 0).
Proof.
  repeat split; try reflexivity.
  eexists. split; [vm_compute; reflexivity|]. split; reflexivity.
Qed.

(** The parts of the pagination rules that both handlers follow. *)
Lemma limit_above_50_is_clamped (s : string) (z : Z) (q : search_query)
    (lq : list_query) :
  parseInt_string s = Fin z 0 -> 50 < z ->
  lq_limit lq = Some s -> sq_limit q = Some s ->
  list_limit lq = Fin 50 0 /\ search_limit q = Fin 50 0.
Proof.
  intros Hs Hz Hl Hq. unfold list_limit, search_limit, parseInt.
  rewrite Hl, Hq. simpl. rewrite Hs.
  assert (Ht : JsNumber.truthy (Fin z 0) = true) by (destruct z; [lia | reflexivity..]).
  unfold JsNumber.or_else. rewrite Ht, min_50.
  rewrite Z.min_r by lia. split; reflexivity.
Qed.

Lemma absent_page_and_limit_default (q : search_query) (lq : list_query) :
  lq_page lq = None -> lq_limit lq = None ->
  sq_page q = None -> sq_limit q = None ->
  list_page lq = Fin 1 0 /\ list_limit lq = Fin 10 0 /\
  search_page q = Fin 1 0 /\ search_limit q = Fin 10 0.
Proof.
  intros H1 H2 H3 H4. unfold list_page, list_limit, search_page, search_limit.
  rewrite H1, H2, H3, H4. repeat split; reflexivity.
Qed.

Lemma list_limit_at_most_50 (q : list_query) :
  exists l, list_limit q = Fin l 0 /\ l <= 50.
Proof.
  unfold list_limit.
  destruct (or_else_integral (parseInt (query_value (lq_limit q))) (Fin 10 0)
              (parseInt_integral _) (or_intror (ex_intro _ 10 eq_refl)))
    as [E|[z E]].
  - unfold JsNumber.or_else in E.
    destruct (JsNumber.truthy (parseInt (query_value (lq_limit q)))) eqn:T;
      [|discriminate].
    rewrite E in T. discriminate.
  - rewrite E, min_50. exists (Z.min z 50). split; [reflexivity | lia].
Qed.

(** C6.  Every 200 reply of the listing and of the search carries rows in
    the order [rating DESC NULLS LAST, id ASC], and two replies for
    different pages of the same query with the same page size, on a table
    whose ids are unique, have no id in common. *)
Theorem pages_are_ordered_and_disjoint (t : table) (req1 req2 : request)
    (r1 r2 : response) :
  NoDup (map id t) ->
  same_filters req1 req2 ->
  handle t req1 = Ok200 r1 ->
  handle t req2 = Ok200 r2 ->
  StronglySorted before (data r1) /\
  StronglySorted before (data r2) /\
  (limit r1 = limit r2 -> page r1 <> page r2 ->
   forall a b, In a (data r1) -> In b (data r2) -> id a <> id b).
Proof.
  intros Hnd Hsame H1 H2.
  apply handle_ok in H1. destruct H1 as (p1 & l1 & m1 & Hp1 & Hl1 & Hl1' & Ho1 & Hs1 & Hd1).
  apply handle_ok in H2. destruct H2 as (p2 & l2 & m2 & Hp2 & Hl2 & Hl2' & Ho2 & Hs2 & Hd2).
  rewrite Hd1, Hd2. split; [apply page_of_sorted|]. split; [apply page_of_sorted|].
  intros Hl Hp a b Ha Hb.
  rewrite Hl1, Hl2 in Hl. inversion Hl; subst l2. clear Hl.
  rewrite (same_filters_selected t req1 req2 Hsame), Hs2 in Hs1.
  inversion Hs1; subst m2. clear Hs1.
  apply (pages_disjoint m1 p1 p2 l1 a b); try assumption.
  - exact (selected_nodup t req2 m1 Hnd Hs2).
  - intros ->. apply Hp. rewrite Hp1, Hp2. reflexivity.
Qed.

Lemma sample_ids_unique : NoDup (map id Sample.recipes).
Proof. repeat constructor; simpl; intuition discriminate. Qed.

Lemma pages_are_ordered_and_disjoint_witness :
  exists r1 r2,
    map id (data r1) = [5; 1] /\ map id (data r2) = [4; 2] /\
    StronglySorted before (data r1) /\
    StronglySorted before (data r2) /\
    (limit r1 = limit r2 -> page r1 <> page r2 ->
     forall a b, In a (data r1) -> In b (data r2) -> id a <> id b).
Proof.
  eexists. eexists.
  split; [|split;
    [|apply (pages_are_ordered_and_disjoint Sample.recipes
               (GetSearch (Sample.e_title_page "1")) (GetSearch (Sample.e_title_page "2")));
      [exact sample_ids_unique
      |simpl; repeat split
      |vm_compute; reflexivity
      |vm_compute; reflexivity]]];
    reflexivity.
Defined.

(** C7.  In a 200 reply of the search, [total] is the number of rows that
    the [WHERE] clause of the data query selects: the count query binds the
    same conditions to the same parameters, the two parameters of [LIMIT]
    and [OFFSET] removed, and [data] is a page of those same rows. *)
Theorem search_total_counts_the_filtered_rows (t : table) (q : search_query)
    (r : response) :
  search_recipes t q = Ok200 r ->
  let b := build_filters q in
  let data_params :=
    (queryParams b ++ [PNum (search_limit q)] ++ [PNum (search_offset q)])%list in
  exists p l matched,
    where_rows (whereConditions b) data_params t = inr matched /\
    where_rows (whereConditions b) (slice_0_minus2 data_params) t = inr matched /\
    total r = Z.of_nat (List.length matched) /\
    (exists keep, matched = filter keep t) /\
    page r = Fin p 0 /\ limit r = Fin l 0 /\
    data r = page_of p l matched.
Proof.
  intros H b data_params.
  apply search_recipes_ok in H.
  destruct H as (p & l & m & Hp & Hl & _ & _ & Hal & Hm & Ht & Hd).
  destruct (build_filters_numbered q) as [Hw _].
  exists p, l, m. fold b in Hm, Hw.
  split; [|split; [|split; [|split; [|split; [|split]]]]]; try assumption.
  - unfold data_params. rewrite where_rows_app; [exact Hm|].
    unfold well_numbered in Hw. lia.
  - unfold data_params. rewrite slice_pushed. exact Hm.
  - exact (where_rows_filter _ _ _ _ Hm).
Qed.

Lemma search_total_counts_the_filtered_rows_witness :
  exists r,
    search_recipes Sample.recipes (Sample.with_rating ">=4.5") = Ok200 r /\
    total r = 3 /\ List.length Sample.recipes = 5%nat /\
    let b := build_filters (Sample.with_rating ">=4.5") in
    let data_params :=
      (queryParams b ++ [PNum (search_limit (Sample.with_rating ">=4.5"))]
                     ++ [PNum (search_offset (Sample.with_rating ">=4.5"))])%list in
    exists p l matched,
      where_rows (whereConditions b) data_params Sample.recipes = inr matched /\
      where_rows (whereConditions b) (slice_0_minus2 data_params) Sample.recipes
        = inr matched /\
      total r = Z.of_nat (List.length matched) /\
      (exists keep, matched = filter keep Sample.recipes) /\
      page r = Fin p 0 /\ limit r = Fin l 0 /\
      data r = page_of p l matched.
Proof.
  eexists.
  split; [vm_compute; reflexivity|].
  split; [reflexivity|]. split; [reflexivity|].
  apply (search_total_counts_the_filtered_rows Sample.recipes
           (Sample.with_rating ">=4.5")).
  vm_compute. reflexivity.
Defined.

Section LoaderClaims.

Variable composite_text : value -> string.

(** C8.  On a table that holds at least one row the loader inserts nothing
    and leaves the database as it is, whatever the file; so does every
    further run. *)
Theorem ingestion_skips_a_populated_table (file : option value) (db : database) :
  rows db <> [] ->
  parseAndInsertRecipes composite_text file db = (db, 0) /\
  forall file',
    parseAndInsertRecipes composite_text file'
      (fst (parseAndInsertRecipes composite_text file db)) = (db, 0).
Proof.
  intros Hne.
  assert (Hskip : forall f, parseAndInsertRecipes composite_text f db = (db, 0)).
  { intros f. unfold parseAndInsertRecipes. destruct f as [recipesData|]; [|reflexivity].
    destruct (rows db) as [|r rest]; [contradiction|]. reflexivity. }
  split; [apply Hskip|].
  intros file'. rewrite (Hskip file). simpl. apply Hskip.
Qed.

(** C10.  The parameter of a scalar text field is never the empty string;
    when the field of the recipe is the empty string or is absent the
    parameter is [null] and the inserted row has NULL in that column. *)
Theorem empty_text_field_is_stored_as_null (f : text_field) (recipe : value)
    (p : insert_params) (db db' : database) :
  recipe_params recipe = Some p ->
  insert composite_text db p = inr db' ->
  field_param f p <> VStr "" /\
  (get recipe (field_name f) = Some (VStr "") \/
   get recipe (field_name f) = Some VUndefined ->
   field_param f p = VNull /\
   exists r, rows db' = (rows db ++ [r])%list /\ field_cell f r = None).
Proof.
  intros Hp Hi.
  destruct (field_param_or_else f recipe p Hp) as [raw [Hraw Hf]].
  split.
  - rewrite Hf. apply or_else_null_not_empty.
  - intros Hempty.
    assert (Hnull : field_param f p = VNull).
    { rewrite Hf. rewrite Hraw in Hempty.
      destruct Hempty as [E|E]; inversion E; reflexivity. }
    split; [exact Hnull|].
    destruct (insert_appends composite_text db db' p Hi) as [r [Hr [_ [_ [_ Hcell]]]]].
    exists r. split; [exact Hr | exact (Hcell f Hnull)].
Qed.

End LoaderClaims.

Lemma ingestion_skips_a_populated_table_witness :
  let first_run :=
    parseAndInsertRecipes Sample.no_text (Some Sample.file_with_empty_cuisine)
                          Sample.empty_db in
  snd first_run = 1 /\
  List.length (rows (fst first_run)) = 1%nat /\
  parseAndInsertRecipes Sample.no_text (Some Sample.file_with_empty_cuisine)
                        (fst first_run) = (fst first_run, 0).
Proof.
  split; [reflexivity|]. split; [reflexivity|].
  apply (ingestion_skips_a_populated_table Sample.no_text
           (Some Sample.file_with_empty_cuisine)).
  vm_compute. discriminate.
Defined.

Lemma empty_text_field_is_stored_as_null_witness :
  exists p db',
    recipe_params Sample.recipe_with_empty_cuisine = Some p /\
    insert Sample.no_text Sample.empty_db p = inr db' /\
    p_cuisine p = VNull /\
    exists r, rows db' = [r] /\ cuisine r = None.
Proof.
  eexists. eexists.
  split; [vm_compute; reflexivity|]. split; [vm_compute; reflexivity|].
  apply (proj2 (empty_text_field_is_stored_as_null Sample.no_text FCuisine
                  Sample.recipe_with_empty_cuisine _ Sample.empty_db _
                  eq_refl eq_refl)).
  left. reflexivity.
Defined.

(** C9.  A raw rating that passes the test [isNaN] but that [parseFloat]
    cannot read is stored as NaN: JSON [null] and the empty string convert
    to the number 0 under [isNaN] and to NaN under [parseFloat].  The
    recipe of [file_with_null_rating] is stored with the rating NaN. *)
Theorem null_rating_is_stored_as_NaN :
  isNaN VNull = false /\ parseFloat VNull = NaN /\
  sanitize_float VNull = Some NaN /\
  sanitize_float (VStr "") = Some NaN /\
  sanitize_float (VStr "NaN") = None /\
  forall composite_text,
    map rating
        (rows (fst (parseAndInsertRecipes composite_text
                      (Some Sample.file_with_null_rating) Sample.empty_db)))
    = [Some NaN].
Proof.
  repeat split; try (vm_compute; reflexivity).
Qed.

(** * Further properties *)

(** ** Replies of the listing *)

Module ListingFacts.

Import StoreFacts OrderFacts ServerFacts PageFacts.

Lemma truthy_nonzero (z : Z) : z <> 0 -> JsNumber.truthy (Fin z 0) = true.
Proof. destruct z; [congruence | reflexivity..]. Qed.

(** The page of the listing when the parameter reads as an integer. *)
Lemma list_page_parsed (q : list_query) (s : string) (p : Z) :
  lq_page q = Some s -> parseInt_string s = Fin p 0 -> p <> 0 ->
  list_page q = Fin p 0.
Proof.
  intros Hq Hs Hp. unfold list_page, parseInt. rewrite Hq. simpl. rewrite Hs.
  unfold JsNumber.or_else. rewrite (truthy_nonzero p Hp). reflexivity.
Qed.

Lemma list_limit_parsed (q : list_query) (s : string) (z : Z) :
  lq_limit q = Some s -> parseInt_string s = Fin z 0 -> z <> 0 ->
  list_limit q = Fin (Z.min z 50) 0.
Proof.
  intros Hq Hs Hz. unfold list_limit, parseInt. rewrite Hq. simpl. rewrite Hs.
  unfold JsNumber.or_else. rewrite (truthy_nonzero z Hz). apply min_50.
Qed.

Lemma list_limit_nonzero (q : list_query) : list_limit q <> Fin 0 0.
Proof.
  unfold list_limit, JsNumber.or_else.
  destruct (JsNumber.truthy (parseInt (query_value (lq_limit q)))) eqn:T.
  - destruct (parseInt_integral (query_value (lq_limit q))) as [E|[z E]];
      rewrite E in *; [discriminate|].
    rewrite min_50. intros H. inversion H as [Hz].
    destruct z; [discriminate | lia | lia].
  - discriminate.
Qed.

(** The reply of the listing in terms of its page [p] and page size [l]. *)
Lemma list_recipes_value (t : table) (q : list_query) (p l : Z) :
  list_page q = Fin p 0 -> list_limit q = Fin l 0 ->
  list_recipes t q =
    if in_int8 l && negb (l <? 0) &&
       in_int8 ((p - 1) * l) && negb ((p - 1) * l <? 0)
    then Ok200 (mkResponse (Fin p 0) (Fin l 0) (Z.of_nat (List.length t))
                           (page_of p l t))
    else Err500.
Proof.
  intros Hp Hl.
  unfold list_recipes, list_offset, select_count, select_page, where_rows,
    bind_count.
  rewrite Hp, Hl, offset_integer. simpl. rewrite scan_nil. simpl.
  destruct (in_int8 l); simpl; [|reflexivity].
  destruct (l <? 0); simpl; [reflexivity|].
  destruct (in_int8 ((p - 1) * l)); simpl; [|reflexivity].
  destruct ((p - 1) * l <? 0); simpl; reflexivity.
Qed.

Lemma in_int8_small (z : Z) : 0 <= z -> z < 2 ^ 63 -> in_int8 z = true.
Proof.
  intros H0 H1. unfold in_int8.
  apply andb_true_intro. split; [apply Z.leb_le | apply Z.ltb_lt]; lia.
Qed.


Lemma page_of_length (p l : Z) (m : list row) :
  0 <= l -> Z.of_nat (List.length (page_of p l m)) <= l /\
            (List.length (page_of p l m) <= List.length m)%nat.
Proof.
  intros Hl. unfold page_of. rewrite length_firstn, length_skipn.
  rewrite <- (Permutation_length (order_by_perm m)). lia.
Qed.

End ListingFacts.

Import StoreFacts OrderFacts ServerFacts PageFacts LoaderFacts ListingFacts.



(** X2.  A [page] or a [limit] that reads as a negative integer makes the
    listing answer 500, on every table. *)
Theorem listing_rejects_negative_page_or_limit (t : table) (q : list_query)
    (s : string) (z : Z) :
  parseInt_string s = Fin z 0 -> z < 0 ->
  lq_page q = Some s \/ lq_limit q = Some s ->
  list_recipes t q = Err500.
Proof.
  intros Hs Hz Hq.
  destruct (list_page_integral q) as [Ep|[p Ep]].
  { unfold list_page, JsNumber.or_else in Ep.
    destruct (JsNumber.truthy (parseInt (query_value (lq_page q)))) eqn:T;
      [rewrite Ep in T|]; discriminate. }
  destruct (list_limit_integral q) as [El|[l El]].
  { unfold list_limit in El.
    destruct (or_else_integral (parseInt (query_value (lq_limit q))) (Fin 10 0)
                (parseInt_integral _) (or_intror (ex_intro _ 10 eq_refl)))
      as [E|[y E]].
    - unfold JsNumber.or_else in E.
      destruct (JsNumber.truthy (parseInt (query_value (lq_limit q)))) eqn:T;
        [rewrite E in T|]; discriminate.
    - rewrite E, min_50 in El. discriminate. }
  rewrite (list_recipes_value t q p l Ep El).
  assert (Hl0 : l <> 0).
  { intros ->. exact (list_limit_nonzero q El). }
  destruct Hq as [Hq|Hq].
  - rewrite (list_page_parsed q s z Hq Hs) in Ep by lia. inversion Ep; subst p.
    destruct (Z.ltb_spec l 0) as [Hl|Hl].
    + rewrite andb_false_r. reflexivity.
    + destruct (Z.ltb_spec ((z - 1) * l) 0) as [Ho|Ho]; [|nia].
      rewrite !andb_false_r. reflexivity.
  - rewrite (list_limit_parsed q s z Hq Hs) in El by lia. inversion El; subst l.
    destruct (Z.ltb_spec (Z.min z 50) 0) as [Hl|Hl]; [|lia].
    rewrite andb_false_r. reflexivity.
Qed.

Lemma listing_rejects_negative_page_or_limit_witness :
  list_recipes Sample.recipes (mkListQuery (Some "-1") None) = Err500 /\
  list_recipes Sample.recipes (mkListQuery None (Some "-5")) = Err500.
Proof.
  split.
  - apply (listing_rejects_negative_page_or_limit Sample.recipes
             (mkListQuery (Some "-1") None) "-1" (-1));
      [reflexivity | lia | left; reflexivity].
  - apply (listing_rejects_negative_page_or_limit Sample.recipes
             (mkListQuery None (Some "-5")) "-5" (-5));
      [reflexivity | lia | right; reflexivity].
Defined.

(** ** Sizes and coverage of the pages *)

Module CoverFacts.

Import StoreFacts OrderFacts ServerFacts PageFacts ListingFacts.

Lemma search_limit_at_most_50 (q : search_query) (l : Z) :
  search_limit q = Fin l 0 -> l <= 50.
Proof.
  unfold search_limit.
  set (x := parseInt _). destruct (parseInt_integral
    (match sq_limit q with Some s => VStr s | None => VNum (Fin 10 0) end))
    as [E|[z E]]; fold x in E; rewrite E.
  - discriminate.
  - rewrite min_50. intros H. inversion H. lia.
Qed.

Lemma where_rows_length (cs : list condition) (ps : list param) (t : table)
    (kept : list row) :
  where_rows cs ps t = inr kept -> (List.length kept <= List.length t)%nat.
Proof.
  intros H. apply where_rows_filter in H. destruct H as [f ->].
  apply filter_length_le.
Qed.

(** Consecutive slices add up. *)
Lemma firstn_then_next {A : Type} (a b : nat) (l : list A) :
  (firstn a l ++ firstn b (skipn a l))%list = firstn (a + b) l.
Proof.
  revert l. induction a as [|a IH]; intros l; simpl; [reflexivity|].
  destruct l as [|x l]; simpl.
  - rewrite firstn_nil. reflexivity.
  - rewrite IH. reflexivity.
Qed.

(** Pages [k+1], [k+2], ... of size [l], one after the other. *)
Lemma consecutive_pages (l : Z) (m : list row) (rs : list response) (k : nat) :
  0 < l ->
  (forall i r, nth_error rs i = Some r ->
               data r = page_of (Z.of_nat (k + i) + 1) l m) ->
  List.concat (map data rs)
    = firstn (List.length rs * Z.to_nat l) (skipn (k * Z.to_nat l) (order_by m)).
Proof.
  intros Hl. revert k. induction rs as [|r rs IH]; intros k H; simpl; [reflexivity|].
  rewrite (H 0%nat r eq_refl).
  rewrite (IH (S k)).
  - unfold page_of. rewrite Nat.add_0_r.
    replace (Z.to_nat ((Z.of_nat k + 1 - 1) * l)) with (k * Z.to_nat l)%nat by nia.
    rewrite <- firstn_then_next, skipn_skipn.
    replace (Z.to_nat l + k * Z.to_nat l)%nat with (S k * Z.to_nat l)%nat by lia.
    reflexivity.
  - intros i x Hx. rewrite (H (S i) x Hx). f_equal. lia.
Qed.

End CoverFacts.

Import CoverFacts.

(** X3.  A 200 reply of either handler carries at most [limit] rows, its
    [limit] is at most 50, and [total] is at least the number of rows
    carried and at most the size of the table. *)
Theorem reply_carries_at_most_limit_rows (t : table) (req : request)
    (r : response) :
  handle t req = Ok200 r ->
  exists l, limit r = Fin l 0 /\ 0 <= l <= 50 /\
            Z.of_nat (List.length (data r)) <= l /\
            Z.of_nat (List.length (data r)) <= total r /\
            total r <= Z.of_nat (List.length t).
Proof.
  destruct req as [q|q]; simpl; intros H.
  - pose proof (list_limit_at_most_50 q) as [l' [E' Hle]].
    assert (Hlim : limit r = list_limit q).
    { unfold list_recipes in H.
      destruct (bind (select_count t [] []) _) as [e|r'] eqn:E; [discriminate|].
      inversion H; subst r'. apply bind_inr in E. destruct E as [n [_ E]].
      apply bind_inr in E. destruct E as [rows [_ E]]. inversion E. reflexivity. }
    apply list_recipes_ok in H.
    destruct H as (p & l & Hp & Hl & Hl0 & Ho & Ht & Hd).
    rewrite Hlim, E' in Hl. inversion Hl; subst l'.
    exists l. rewrite Hd, Ht.
    destruct (page_of_length p l t Hl0) as [H1 H2].
    split; [rewrite Hlim; exact E'|]. repeat split; lia.
  - assert (Hlim : limit r = search_limit q).
    { unfold search_recipes in H.
      destruct (bind (select_page t _ _ _ _) _) as [e|r'] eqn:E; [discriminate|].
      inversion H; subst r'. apply bind_inr in E. destruct E as [n [_ E]].
      apply bind_inr in E. destruct E as [rows [_ E]]. inversion E. reflexivity. }
    apply search_recipes_ok in H.
    destruct H as (p & l & m & Hp & Hl & Hl0 & Ho & _ & Hm & Ht & Hd).
    rewrite Hlim in Hl. pose proof (search_limit_at_most_50 q l Hl).
    exists l. rewrite Hd, Ht.
    destruct (page_of_length p l m Hl0) as [H1 H2].
    pose proof (where_rows_length _ _ _ _ Hm).
    split; [rewrite Hlim; exact Hl|]. repeat split; lia.
Qed.

Lemma reply_carries_at_most_limit_rows_witness :
  exists r l,
    handle Sample.recipes
      (GetRecipes (mkListQuery (Some "1") (Some "100"))) = Ok200 r /\
    limit r = Fin l 0 /\ 0 <= l <= 50 /\
    Z.of_nat (List.length (data r)) <= l /\
    Z.of_nat (List.length (data r)) <= total r /\
    total r <= Z.of_nat (List.length Sample.recipes).
Proof.
  eexists.
  destruct (reply_carries_at_most_limit_rows Sample.recipes
              (GetRecipes (mkListQuery (Some "1") (Some "100"))) _
              ltac:(vm_compute; reflexivity)) as [l H].
  exists l. split; [vm_compute; reflexivity | exact H].
Defined.

(** X4.  The replies for pages 1, 2, ..., n of one query with one positive
    page size, put one after the other, are the selected rows in order,
    each once, as soon as n pages are enough to hold them. *)
Theorem consecutive_pages_give_every_row (t : table) (reqs : list request)
    (rs : list response) (m : list row) (l : Z) :
  0 < l ->
  Forall2 (fun req r => handle t req = Ok200 r /\ selected t req = inr m /\
                        limit r = Fin l 0) reqs rs ->
  (forall i r, nth_error rs i = Some r -> page r = Fin (Z.of_nat i + 1) 0) ->
  Z.of_nat (List.length m) <= Z.of_nat (List.length rs) * l ->
  List.concat (map data rs) = order_by m.
Proof.
  intros Hl Hall Hpages Hlen.
  assert (Hdata : forall i r, nth_error rs i = Some r ->
                              data r = page_of (Z.of_nat (0 + i) + 1) l m).
  { intros i r Hr.
    assert (Hin : exists req, handle t req = Ok200 r /\ selected t req = inr m /\
                              limit r = Fin l 0).
    { clear Hpages Hlen. revert i Hr. induction Hall as [|req x reqs rs Hx _ IH];
        intros i Hr; [destruct i; discriminate|].
      destruct i as [|i]; simpl in Hr; [inversion Hr; subst; eauto | eauto]. }
    destruct Hin as (req & Hh & Hs & Hlim).
    apply handle_ok in Hh.
    destruct Hh as (p & l' & m' & Hp & Hl' & _ & _ & Hs' & Hd).
    rewrite Hs in Hs'. inversion Hs'; subst m'.
    rewrite Hlim in Hl'. inversion Hl'; subst l'.
    rewrite (Hpages i r Hr) in Hp. inversion Hp; subst p. exact Hd. }
  rewrite (consecutive_pages l m rs 0 Hl Hdata). simpl.
  apply firstn_all2.
  rewrite <- (Permutation_length (order_by_perm m)). nia.
Qed.

Lemma consecutive_pages_give_every_row_witness :
  exists r1 r2,
    handle Sample.recipes (GetSearch (Sample.e_title_page "1")) = Ok200 r1 /\
    handle Sample.recipes (GetSearch (Sample.e_title_page "2")) = Ok200 r2 /\
    map id (data r1 ++ data r2)%list = [5; 1; 4; 2] /\
    List.concat (map data [r1; r2])
      = order_by (filter (fun x => negb (id x =? 3)) Sample.recipes).
Proof.
  eexists. eexists.
  split; [vm_compute; reflexivity|]. split; [vm_compute; reflexivity|].
  split; [reflexivity|].
  apply (consecutive_pages_give_every_row Sample.recipes
           [GetSearch (Sample.e_title_page "1"); GetSearch (Sample.e_title_page "2")]
           _ _ 2).
  - lia.
  - repeat constructor; vm_compute; reflexivity.
  - intros [|[|[|i]]] r Hr; simpl in Hr; inversion Hr; reflexivity.
  - vm_compute. discriminate.
Defined.

(** X5.  A search without any filter answers exactly as the listing does
    for the same [page] and [limit], whenever each of the two parameters
    is absent or reads as an integer other than 0. *)
Theorem search_without_filters_answers_as_listing (t : table) (q : search_query) :
  given (sq_title q) = None -> given (sq_cuisine q) = None ->
  given (sq_rating q) = None -> given (sq_total_time q) = None ->
  given (sq_calories q) = None ->
  (forall s, sq_page q = Some s -> JsNumber.truthy (parseInt_string s) = true) ->
  (forall s, sq_limit q = Some s -> JsNumber.truthy (parseInt_string s) = true) ->
  search_recipes t q = list_recipes t (mkListQuery (sq_page q) (sq_limit q)).
Proof.
  intros H1 H2 H3 H4 H5 Hp Hl.
  assert (Hb : build_filters q = mkBuilder [] [] 0).
  { unfold build_filters, add_calories, add_total_time, add_rating, add_text.
    rewrite H1, H2, H3, H4, H5. reflexivity. }
  assert (Epage : search_page q = list_page (mkListQuery (sq_page q) (sq_limit q))).
  { unfold search_page, list_page, parseInt. simpl.
    destruct (sq_page q) as [s|]; simpl; [|reflexivity].
    unfold JsNumber.or_else. rewrite (Hp s eq_refl). reflexivity. }
  assert (Elimit : search_limit q = list_limit (mkListQuery (sq_page q) (sq_limit q))).
  { unfold search_limit, list_limit, parseInt. simpl.
    destruct (sq_limit q) as [s|]; simpl; [|reflexivity].
    unfold JsNumber.or_else. rewrite (Hl s eq_refl). reflexivity. }
  unfold search_recipes, list_recipes, search_offset, list_offset.
  rewrite Hb, Epage, Elimit. simpl.
  unfold select_count, where_rows. simpl. rewrite scan_nil. simpl.
  destruct (select_page t [] 1 2 _) as [e|rows]; reflexivity.
Qed.

Lemma search_without_filters_answers_as_listing_witness :
  search_recipes Sample.recipes
    (mkSearchQuery (Some "") None None None None (Some "2") (Some "2"))
  = list_recipes Sample.recipes (mkListQuery (Some "2") (Some "2")).
Proof.
  apply (search_without_filters_answers_as_listing Sample.recipes
           (mkSearchQuery (Some "") None None None None (Some "2") (Some "2")));
    try reflexivity.
  - intros s H. inversion H. reflexivity.
  - intros s H. inversion H. reflexivity.
Defined.

(** ** The loader and the start-up *)

Module StartupFacts.

Import StoreFacts LoaderFacts.

Lemma sorted_snoc (l : list Z) (x : Z) :
  StronglySorted Z.lt l -> Forall (fun y => y < x) l ->
  StronglySorted Z.lt (l ++ [x])%list.
Proof.
  induction l as [|y l IH]; simpl; intros Hs Hall.
  - constructor; constructor.
  - inversion Hs as [|? ? Hs' Hy]; subst. inversion Hall as [|? ? Hyx Hall']; subst.
    constructor; [apply IH; assumption|].
    apply Forall_app. split; [exact Hy | constructor; [exact Hyx | constructor]].
Qed.

Lemma sorted_lt_nodup (l : list Z) : StronglySorted Z.lt l -> NoDup l.
Proof.
  induction l as [|y l IH]; intros Hs; [constructor|].
  inversion Hs as [|? ? Hs' Hy]; subst. constructor; [|apply IH; exact Hs'].
  intros Hin. rewrite Forall_forall in Hy. specialize (Hy y Hin). lia.
Qed.

Lemma extends_refl (db : database) : extends db db.
Proof. split; [exists []; symmetry; apply app_nil_r | lia]. Qed.

Lemma extends_trans (a b c : database) : extends a b -> extends b c -> extends a c.
Proof.
  intros [[x Hx] H1] [[y Hy] H2]. split; [|lia].
  exists (y ++ x)%list. rewrite Hx, Hy, app_assoc. reflexivity.
Qed.

Section Driver.

Variable composite_text : value -> string.

Lemma insert_last_id (db db' : database) (p : insert_params) :
  insert composite_text db p = inr db' -> last_id db' = last_id db + 1.
Proof.
  unfold insert. intros H.
  repeat (apply bind_inr in H; destruct H as [? [_ H]]).
  inversion H. reflexivity.
Qed.

Lemma insert_well_formed (db db' : database) (p : insert_params) :
  well_formed db -> insert composite_text db p = inr db' ->
  well_formed db' /\ extends db' db.
Proof.
  intros [Hs Hb] H.
  pose proof (insert_last_id db db' p H) as Hl.
  destruct (insert_appends composite_text db db' p H) as [r [Hr [Hid _]]].
  split; [split|split].
  - rewrite Hr, map_app. simpl. apply sorted_snoc; [exact Hs|].
    rewrite Forall_map. eapply Forall_impl; [|exact Hb].
    simpl. intros x Hx. lia.
  - rewrite Hr. apply Forall_app. split.
    + eapply Forall_impl; [|exact Hb]. simpl. intros x Hx. lia.
    + constructor; [lia | constructor].
  - exists [r]. exact Hr.
  - lia.
Qed.

Lemma insert_all_well_formed (recipes : list value) (db : database) (n : Z) :
  well_formed db ->
  well_formed (fst (insert_all composite_text recipes db n)) /\
  extends (fst (insert_all composite_text recipes db n)) db.
Proof.
  revert db n. induction recipes as [|recipe rest IH]; intros db n Hw; simpl.
  - split; [exact Hw | apply extends_refl].
  - destruct (recipe_params recipe) as [p|]; [|split; [exact Hw | apply extends_refl]].
    destruct (insert composite_text db p) as [e|db'] eqn:E; [apply IH; exact Hw|].
    destruct (insert_well_formed db db' p Hw E) as [Hw' He].
    destruct (IH db' (n + 1) Hw') as [Hw'' He'].
    split; [exact Hw'' | exact (extends_trans _ _ _ He' He)].
Qed.

Lemma parseAndInsertRecipes_well_formed (file : option value) (db : database) :
  well_formed db ->
  well_formed (fst (parseAndInsertRecipes composite_text file db)) /\
  extends (fst (parseAndInsertRecipes composite_text file db)) db.
Proof.
  intros Hw. unfold parseAndInsertRecipes.
  destruct file as [recipesData|]; [|split; [exact Hw | apply extends_refl]].
  destruct (0 <? Z.of_nat (List.length (rows db)));
    [split; [exact Hw | apply extends_refl]|].
  destruct (entry_values recipesData) as [recipes|];
    [|split; [exact Hw | apply extends_refl]].
  apply insert_all_well_formed. exact Hw.
Qed.


(** The parameter of a time field is the sanitised raw value. *)
Lemma time_params (recipe : value) (p : insert_params) :
  recipe_params recipe = Some p ->
  exists prep cook tot,
    get recipe "prep_time" = Some prep /\ get recipe "cook_time" = Some cook /\
    get recipe "total_time" = Some tot /\
    p_prep_time p = sanitize_int prep /\ p_cook_time p = sanitize_int cook /\
    p_total_time p = sanitize_int tot.
Proof.
  unfold recipe_params.
  destruct (get recipe "rating"); [|discriminate].
  destruct (get recipe "prep_time") as [prep|]; [|discriminate].
  destruct (get recipe "cook_time") as [cook|]; [|discriminate].
  destruct (get recipe "total_time") as [tot|]; [|discriminate].
  destruct (get recipe "nutrients"); [|discriminate].
  destruct (get recipe "cuisine"); [|discriminate].
  destruct (get recipe "title"); [|discriminate].
  destruct (get recipe "description"); [|discriminate].
  destruct (get recipe "serves"); [|discriminate].
  intros H. inversion H; subst p. simpl.
  exists prep, cook, tot. repeat split.
Qed.

Lemma insert_refuses_NaN_time (db : database) (p : insert_params) :
  p_prep_time p = Some NaN \/ p_cook_time p = Some NaN \/ p_total_time p = Some NaN ->
  exists e, insert composite_text db p = inl e.
Proof.
  intros H. unfold insert.
  destruct (varchar 100 _) as [e|c]; simpl; [eauto|].
  destruct (varchar 255 _) as [e|t]; simpl; [eauto|].
  destruct (integer_cell (p_prep_time p)) as [e|prep] eqn:E1; simpl; [eauto|].
  destruct (integer_cell (p_cook_time p)) as [e|cook] eqn:E2; simpl; [eauto|].
  destruct (integer_cell (p_total_time p)) as [e|tot] eqn:E3; simpl; [eauto|].
  destruct H as [H|[H|H]]; rewrite H in *; discriminate.
Qed.

End Driver.

(** The test on the literal ["NaN"] adds nothing to [isNaN]. *)
Lemma is_nan_entry_isNaN (v : value) : is_nan_entry v = isNaN v.
Proof.
  unfold is_nan_entry. destruct (strict_eq_string v "NaN") eqn:E; [|reflexivity].
  destruct v; try discriminate. simpl in E. apply String.eqb_eq in E. subst.
  reflexivity.
Qed.

End StartupFacts.

Import StartupFacts.

Section LoaderProperties.

Variable composite_text : value -> string.

(** X6.  Start-up keeps the rows that the table already holds, in place,
    and gives every row it adds an id above all earlier ones: the ids of
    the table stay increasing, hence unique. *)
Theorem startup_keeps_rows_and_ids_unique (file : json_file) (s : store) :
  (forall db, s = Some db -> well_formed db) ->
  let db' := startServer composite_text file s in
  well_formed db' /\ extends db' (initializeDatabase s) /\
  NoDup (map id (rows db')).
Proof.
  intros Hs db'.
  assert (Hw : well_formed (initializeDatabase s)).
  { destruct s as [db|]; simpl; [apply Hs; reflexivity|].
    split; constructor. }
  assert (H : well_formed db' /\ extends db' (initializeDatabase s)).
  { unfold db', startServer. destruct file as [content|].
    - apply parseAndInsertRecipes_well_formed. exact Hw.
    - split; [exact Hw | apply extends_refl]. }
  destruct H as [H1 H2]. repeat split; try assumption; try apply H1; try apply H2.
  apply sorted_lt_nodup. apply H1.
Qed.

(** X7.  The number that the loader reports as inserted is the number of
    rows by which the table has grown. *)
Theorem inserted_count_is_table_growth (file : option value) (db : database) :
  snd (parseAndInsertRecipes composite_text file db)
  = Z.of_nat (List.length (rows (fst (parseAndInsertRecipes composite_text file db))))
    - Z.of_nat (List.length (rows db)).
Proof.
  unfold parseAndInsertRecipes.
  destruct file as [recipesData|]; simpl; [|lia].
  destruct (0 <? Z.of_nat (List.length (rows db))); simpl; [lia|].
  destruct (entry_values recipesData) as [recipes|]; simpl; [|lia].
  pose proof (insert_all_count composite_text recipes db 0). lia.
Qed.


(** X9.  A recipe whose [prep_time], [cook_time] or [total_time] is JSON
    [null] or the empty string is refused by the store: the value passes
    the NaN test, [parseInt] gives NaN, and NaN is no integer. *)
Theorem recipe_with_null_time_is_refused (recipe raw : value)
    (p : insert_params) (db : database) :
  recipe_params recipe = Some p ->
  raw = VNull \/ raw = VStr "" ->
  get recipe "prep_time" = Some raw \/ get recipe "cook_time" = Some raw \/
  get recipe "total_time" = Some raw ->
  exists e, insert composite_text db p = inl e.
Proof.
  intros Hp Hraw Hget.
  destruct (time_params recipe p Hp)
    as (prep & cook & tot & H1 & H2 & H3 & E1 & E2 & E3).
  assert (Hnan : sanitize_int raw = Some NaN)
    by (destruct Hraw as [-> | ->]; reflexivity).
  apply insert_refuses_NaN_time.
  destruct Hget as [H|[H|H]].
  - left. rewrite E1. rewrite H1 in H. inversion H. exact Hnan.
  - right. left. rewrite E2. rewrite H2 in H. inversion H. exact Hnan.
  - right. right. rewrite E3. rewrite H3 in H. inversion H. exact Hnan.
Qed.

End LoaderProperties.

Lemma startup_keeps_rows_and_ids_unique_witness :
  let db := mkDatabase Sample.recipes 5 in
  let db' := startServer Sample.no_text (Some (Some Sample.file_with_units))
                         (Some db) in
  well_formed db' /\ extends db' db /\ NoDup (map id (rows db')).
Proof.
  apply (startup_keeps_rows_and_ids_unique Sample.no_text
           (Some (Some Sample.file_with_units))
           (Some (mkDatabase Sample.recipes 5))).
  intros db H. inversion H; subst db. split.
  - simpl. repeat (constructor; [|repeat (constructor; try lia)]). constructor.
  - simpl. repeat (constructor; [simpl; lia|]). constructor.
Defined.

Lemma recipe_with_null_time_is_refused_witness :
  exists p e,
    recipe_params (VObj [("title", VStr "Soup"); ("total_time", VNull)]) = Some p /\
    insert Sample.no_text Sample.empty_db p = inl e.
Proof.
  eexists.
  destruct (recipe_with_null_time_is_refused Sample.no_text
              (VObj [("title", VStr "Soup"); ("total_time", VNull)]) VNull _
              Sample.empty_db eq_refl (or_introl eq_refl)
              (or_intror (or_intror eq_refl))) as [e He].
  exists e. split; [reflexivity | exact He].
Defined.

(** X10.  The nutrients kept from an object are exactly its entries whose
    value converts to a number, in their order; the comparison with the
    literal ["NaN"] removes nothing that [isNaN] does not remove. *)
Theorem kept_nutrients_are_the_numeric_entries (props : list (string * value)) :
  clean_nutrients (VObj props)
  = VObj (filter (fun kv => negb (isNaN (snd kv))) props).
Proof.
  unfold clean_nutrients. simpl. f_equal.
  apply filter_ext. intros [k v]. simpl. rewrite is_nan_entry_isNaN. reflexivity.
Qed.

(** ** The conditions and their parameters *)

Module BuilderFacts.

Import ServerFacts.

Lemma push_numbered (b : builder) (c : condition) (p : param) :
  numbered b -> paramCount b = List.length (queryParams b) ->
  placeholder_of c = S (paramCount b) ->
  numbered (mkBuilder (whereConditions b ++ [c])%list
                      (queryParams b ++ [p])%list (S (paramCount b))).
Proof.
  unfold numbered. simpl. intros [Hn Hl] Hc Hp. split.
  - rewrite map_app, length_app, Hn. simpl.
    rewrite Nat.add_1_r, seq_S, Hp, Hc, Hl. reflexivity.
  - rewrite !length_app. simpl. lia.
Qed.

Lemma add_text_numbered (c : text_column) (f : option string) (b : builder) :
  numbered b /\ aligned b -> numbered (add_text c f b) /\ aligned (add_text c f b).
Proof.
  intros [Hn Ha]. split; [|apply add_text_aligned; exact Ha].
  unfold add_text. destruct (given f); [|exact Hn].
  apply push_numbered; [exact Hn | apply Ha | reflexivity].
Qed.

Lemma add_rating_numbered (f : option string) (b : builder) :
  numbered b /\ aligned b -> numbered (add_rating f b) /\ aligned (add_rating f b).
Proof.
  intros [Hn Ha]. split; [|apply add_rating_aligned; exact Ha].
  unfold add_rating. destruct (given f) as [s|]; [|exact Hn].
  destruct (operator_prefix s).
  apply push_numbered; [exact Hn | apply Ha | reflexivity].
Qed.

Lemma add_total_time_numbered (f : option string) (b : builder) :
  numbered b /\ aligned b ->
  numbered (add_total_time f b) /\ aligned (add_total_time f b).
Proof.
  intros [Hn Ha]. split; [|apply add_total_time_aligned; exact Ha].
  unfold add_total_time. destruct (given f) as [s|]; [|exact Hn].
  destruct (operator_prefix s).
  apply push_numbered; [exact Hn | apply Ha | reflexivity].
Qed.

Lemma add_calories_numbered' (f : option string) (b : builder) :
  numbered b /\ aligned b -> numbered (add_calories f b).
Proof.
  intros [Hn Ha]. unfold add_calories. destruct (given f) as [s|]; [|exact Hn].
  destruct (first_digit_run s); [|exact Hn].
  apply push_numbered; [exact Hn | apply Ha | reflexivity].
Qed.

Lemma prefix_app (p v : string) : String.prefix p (p ++ v) = true.
Proof.
  induction p as [|c p IH]; simpl; [destruct v; reflexivity|].
  destruct (ascii_dec c c); [exact IH | congruence].
Qed.

Lemma substring_from_app (p v : string) :
  substring_from (String.length p) (p ++ v) = v.
Proof. induction p as [|c p IH]; simpl; [destruct v; reflexivity | exact IH]. Qed.

(** The operator read from a value written as an operator and a rest. *)
Lemma operator_prefix_written (o : operator) (v : string) :
  (o = Gt \/ o = Lt -> not_starting_with "=" v) ->
  operator_prefix (operator_text o ++ v) = (o, String.length (operator_text o)).
Proof.
  intros Hv. unfold operator_prefix, startsWith.
  destruct o.
  - destruct v; reflexivity.
  - destruct v; reflexivity.
  - assert (Hn : not_starting_with "=" v) by (apply Hv; left; reflexivity).
    destruct v as [|c v]; [reflexivity|]. simpl in Hn.
    destruct c as [[] [] [] [] [] [] [] []]; try reflexivity;
      exfalso; apply Hn; reflexivity.
  - assert (Hn : not_starting_with "=" v) by (apply Hv; right; reflexivity).
    destruct v as [|c v]; [reflexivity|]. simpl in Hn.
    destruct c as [[] [] [] [] [] [] [] []]; try reflexivity;
      exfalso; apply Hn; reflexivity.
  - destruct v; reflexivity.
Qed.

End BuilderFacts.

Import BuilderFacts.

(** X11.  Whatever the request, the conditions of a search are numbered
    [$1], [$2], ... in their order and each has exactly one parameter: the
    text of the request reaches the statement only as parameters. *)
Theorem search_conditions_are_numbered_in_order (q : search_query) :
  map placeholder_of (whereConditions (build_filters q))
    = seq 1 (List.length (whereConditions (build_filters q))) /\
  List.length (queryParams (build_filters q))
    = List.length (whereConditions (build_filters q)) /\
  (List.length (whereConditions (build_filters q)) <= 5)%nat.
Proof.
  assert (H0 : numbered (mkBuilder [] [] 0) /\ aligned (mkBuilder [] [] 0))
    by (repeat split).
  pose proof (add_calories_numbered' (sq_calories q) _
                (add_total_time_numbered (sq_total_time q) _
                   (add_rating_numbered (sq_rating q) _
                      (add_text_numbered Cuisine (sq_cuisine q) _
                         (add_text_numbered Title (sq_title q) _ H0))))) as [H1 H2].
  fold (build_filters q) in H1, H2.
  split; [exact H1|]. split; [exact H2|].
  unfold build_filters, add_calories, add_total_time, add_rating, add_text.
  destruct (given (sq_title q)), (given (sq_cuisine q)),
    (given (sq_rating q)) as [r|], (given (sq_total_time q)) as [tt|],
    (given (sq_calories q)) as [c|];
    try destruct (operator_prefix r); try destruct (operator_prefix tt);
    try destruct (first_digit_run c); simpl; lia.
Qed.

(** X12.  A rating or total_time filter written as one of the operators
    [>=], [<=], [>], [<], [=] followed by a value is read back as that
    operator and that value, provided the value after [>] or [<] does not
    start with [=]. *)
Theorem operator_and_value_are_read_back (o : operator) (v : string) :
  (o = Gt \/ o = Lt -> not_starting_with "=" v) ->
  build_filters (rating_query (operator_text o ++ v))
    = mkBuilder [RatingCompare o 1] [PNum (parseFloat_string v)] 1 /\
  build_filters (total_time_query (operator_text o ++ v))
    = mkBuilder [IntCompare TotalTime o 1] [PNum (parseInt_string v)] 1.
Proof.
  intros Hv.
  assert (Hg : given (Some (operator_text o ++ v)) = Some (operator_text o ++ v))
    by (destruct o; reflexivity).
  unfold build_filters, rating_query, total_time_query, add_calories,
    add_total_time, add_rating, add_text. simpl sq_title. simpl sq_cuisine.
  simpl sq_rating. simpl sq_total_time. simpl sq_calories.
  rewrite Hg. simpl given.
  rewrite (operator_prefix_written o v Hv), substring_from_app.
  split; reflexivity.
Qed.

Lemma operator_and_value_are_read_back_witness :
  build_filters (rating_query ">4.5")
    = mkBuilder [RatingCompare Gt 1] [PNum (Fin 45 1)] 1 /\
  build_filters (total_time_query ">4.5")
    = mkBuilder [IntCompare TotalTime Gt 1] [PNum (Fin 4 0)] 1.
Proof.
  apply (operator_and_value_are_read_back Gt "4.5").
  intros _. simpl. discriminate.
Defined.

(** ** What a search selects *)

Module MeaningFacts.

Import StoreFacts ServerFacts ListingFacts.

Lemma selects_nil (r : row) : selects [] r = true.
Proof. reflexivity. Qed.

Lemma selects_cons (b : bound) (bs : list bound) (r : row) :
  selects (b :: bs) r = selects [b] r && selects bs r.
Proof.
  unfold selects. simpl.
  destruct (eval_bound b r) as [e|[[|]|]]; simpl; reflexivity.
Qed.

Lemma selects_app (bs1 bs2 : list bound) (r : row) :
  selects (bs1 ++ bs2)%list r = selects bs1 r && selects bs2 r.
Proof.
  induction bs1 as [|b bs1 IH]; simpl; [reflexivity|].
  rewrite selects_cons, IH, (selects_cons b bs1), andb_assoc. reflexivity.
Qed.


Lemma bind_conditions_snoc (ps : list param) (cs : list condition) (c : condition) :
  bind_conditions ps (cs ++ [c])%list
  = (bs <- bind_conditions ps cs ;; b <- bind_condition ps c ;; ok (bs ++ [b])%list).
Proof.
  induction cs as [|x cs IH]; simpl.
  - destruct (bind_condition ps c); reflexivity.
  - destruct (bind_condition ps x) as [e|b0]; simpl; [reflexivity|].
    rewrite IH. destruct (bind_conditions ps cs) as [e|bs]; simpl; [reflexivity|].
    destruct (bind_condition ps c); reflexivity.
Qed.

Lemma bind_condition_last (ps : list param) (c : condition) (p : param) :
  placeholder_of c = S (List.length ps) ->
  bind_condition (ps ++ [p])%list c = bind_alone c p.
Proof.
  intros Hc.
  assert (Hp : parameter (ps ++ [p])%list (S (List.length ps)) = inr p).
  { unfold parameter. rewrite nth_error_app2 by lia. rewrite Nat.sub_diag. reflexivity. }
  destruct c as [col n|o n|col o n]; simpl in Hc; subst n;
    unfold bind_condition; rewrite Hp; reflexivity.
Qed.

(** Binding after one more condition and its parameter have been pushed. *)
Lemma bind_pushed (b : builder) (c : condition) (p : param) :
  aligned b -> placeholder_of c = S (paramCount b) ->
  bind_conditions (queryParams b ++ [p])%list (whereConditions b ++ [c])%list
  = (bs <- bind_conditions (queryParams b) (whereConditions b) ;;
     x <- bind_alone c p ;; ok (bs ++ [x])%list).
Proof.
  intros [Hc Hw] Hp. unfold well_numbered in Hw.
  rewrite bind_conditions_snoc, bind_conditions_app by lia.
  rewrite bind_condition_last by (rewrite Hp, Hc; reflexivity).
  reflexivity.
Qed.

(** The conditions of a builder bound to its parameters. *)
Lemma bound_add_text (col : text_column) (f : option string) (b : builder) :
  aligned b ->
  bind_conditions (queryParams (add_text col f b)) (whereConditions (add_text col f b))
  = (bs <- bind_conditions (queryParams b) (whereConditions b) ;;
     ok (bs ++ text_bound col f)%list).
Proof.
  intros Hb. unfold add_text, text_bound. destruct (given f) as [s|]; simpl.
  - rewrite bind_pushed; [|exact Hb|reflexivity]. reflexivity.
  - destruct (bind_conditions _ _); simpl; [|rewrite app_nil_r]; reflexivity.
Qed.

Lemma bound_add_rating (f : option string) (b : builder) :
  aligned b ->
  bind_conditions (queryParams (add_rating f b)) (whereConditions (add_rating f b))
  = (bs <- bind_conditions (queryParams b) (whereConditions b) ;;
     ok (bs ++ rating_bound f)%list).
Proof.
  intros Hb. unfold add_rating, rating_bound. destruct (given f) as [s|]; simpl.
  - destruct (operator_prefix s) as [o k]. simpl.
    rewrite bind_pushed; [|exact Hb|reflexivity]. reflexivity.
  - destruct (bind_conditions _ _); simpl; [|rewrite app_nil_r]; reflexivity.
Qed.

Lemma bound_add_total_time (f : option string) (b : builder) :
  aligned b ->
  bind_conditions (queryParams (add_total_time f b))
                  (whereConditions (add_total_time f b))
  = (bs <- bind_conditions (queryParams b) (whereConditions b) ;;
     x <- total_time_bound f ;; ok (bs ++ x)%list).
Proof.
  intros Hb. unfold add_total_time, total_time_bound.
  destruct (given f) as [s|]; simpl.
  - destruct (operator_prefix s) as [o k]. simpl.
    rewrite bind_pushed; [|exact Hb|reflexivity]. simpl.
    destruct (bind_conditions _ _); simpl; [reflexivity|].
    destruct (int4_of_number _); reflexivity.
  - destruct (bind_conditions _ _); simpl; [|rewrite app_nil_r]; reflexivity.
Qed.

Lemma bound_add_calories (f : option string) (b : builder) :
  aligned b ->
  bind_conditions (queryParams (add_calories f b))
                  (whereConditions (add_calories f b))
  = (bs <- bind_conditions (queryParams b) (whereConditions b) ;;
     x <- calories_bound f ;; ok (bs ++ x)%list).
Proof.
  intros Hb. unfold add_calories, calories_bound.
  destruct (given f) as [s|]; simpl.
  - destruct (first_digit_run s) as [d|]; simpl.
    + rewrite bind_pushed; [|exact Hb|reflexivity]. simpl.
      destruct (bind_conditions _ _); simpl; [reflexivity|].
      destruct (int4_of_number _); reflexivity.
    + destruct (bind_conditions _ _); simpl; [|rewrite app_nil_r]; reflexivity.
  - destruct (bind_conditions _ _); simpl; [|rewrite app_nil_r]; reflexivity.
Qed.

(** The conditions that the handler builds, bound to the parameters it
    pushes, are the bound conditions of the request. *)
Lemma bind_build_filters (q : search_query) :
  bind_conditions (queryParams (build_filters q)) (whereConditions (build_filters q))
  = bounds q.
Proof.
  unfold build_filters, bounds.
  assert (H0 : aligned (mkBuilder [] [] 0)) by (split; reflexivity).
  pose proof (add_text_aligned Title (sq_title q) _ H0) as H1.
  pose proof (add_text_aligned Cuisine (sq_cuisine q) _ H1) as H2.
  pose proof (add_rating_aligned (sq_rating q) _ H2) as H3.
  pose proof (add_total_time_aligned (sq_total_time q) _ H3) as H4.
  rewrite (bound_add_calories _ _ H4), (bound_add_total_time _ _ H3),
    (bound_add_rating _ _ H2), (bound_add_text _ _ _ H1), (bound_add_text _ _ _ H0).
  simpl.
  destruct (total_time_bound (sq_total_time q)) as [e|tt]; simpl; [reflexivity|].
  destruct (calories_bound (sq_calories q)) as [e|c]; simpl; [reflexivity|].
  rewrite <- !app_assoc. reflexivity.
Qed.

Lemma selects_text_title (f : option string) (r : row) :
  selects (text_bound Title f) r = holds_text f (title r).
Proof.
  unfold text_bound, holds_text, selects. destruct (given f) as [s|]; simpl;
    [|reflexivity].
  destruct (title r) as [x|]; simpl; [|reflexivity].
  destruct (ilike _ x); reflexivity.
Qed.

Lemma selects_text_cuisine (f : option string) (r : row) :
  selects (text_bound Cuisine f) r = holds_text f (cuisine r).
Proof.
  unfold text_bound, holds_text, selects. destruct (given f) as [s|]; simpl;
    [|reflexivity].
  destruct (cuisine r) as [x|]; simpl; [|reflexivity].
  destruct (ilike _ x); reflexivity.
Qed.

Lemma selects_rating (f : option string) (r : row) :
  selects (rating_bound f) r = holds_rating f (rating r).
Proof.
  unfold rating_bound, holds_rating, selects. destruct (given f) as [s|]; simpl;
    [|reflexivity].
  destruct (operator_prefix s) as [o k]. simpl.
  destruct (rating r) as [x|]; simpl; [|reflexivity].
  destruct (holds o _); reflexivity.
Qed.

Lemma selects_total_time (f : option string) (x : list bound) (r : row) :
  total_time_bound f = inr x ->
  selects x r = holds_total_time f (total_time r).
Proof.
  unfold total_time_bound, holds_total_time, selects.
  destruct (given f) as [s|]; simpl.
  - destruct (operator_prefix s) as [o k].
    destruct (int4_of_number _) as [e|z]; simpl; [discriminate|].
    intros H. inversion H; subst x. simpl.
    destruct (total_time r) as [v|]; simpl; [|reflexivity].
    destruct (holds o _); reflexivity.
  - intros H. inversion H. reflexivity.
Qed.

Lemma selects_calories (f : option string) (x : list bound) (r : row) :
  calories_bound f = inr x ->
  selects x r = holds_calories f (nutrients r).
Proof.
  unfold calories_bound, holds_calories, selects.
  destruct (given f) as [s|]; simpl.
  - destruct (first_digit_run s) as [d|].
    + destruct (int4_of_number _) as [e|z]; simpl; [discriminate|].
      intros H. inversion H; subst x. simpl.
      destruct (calories_of (nutrients r)) as [e|[c|]]; simpl; try reflexivity.
      destruct (holds _ _); reflexivity.
    + intros H. inversion H. reflexivity.
  - intros H. inversion H. reflexivity.
Qed.

(** The bound conditions of a request select the rows that meet it. *)
Lemma selects_bounds (q : search_query) (bs : list bound) (r : row) :
  bounds q = inr bs -> selects bs r = meets q r.
Proof.
  unfold bounds, meets.
  destruct (total_time_bound (sq_total_time q)) as [e|tt] eqn:Et; simpl;
    [discriminate|].
  destruct (calories_bound (sq_calories q)) as [e|c] eqn:Ec; simpl;
    [discriminate|].
  intros H. inversion H; subst bs.
  rewrite !selects_app, selects_text_title, selects_text_cuisine, selects_rating,
    (selects_total_time _ _ _ Et), (selects_calories _ _ _ Ec), !andb_assoc.
  reflexivity.
Qed.

Lemma row_matches_no_cast (bs : list bound) (r : row) :
  forallb no_cast bs = true -> exists v, row_matches bs r = inr v.
Proof.
  induction bs as [|b bs IH]; simpl; intros H; [eexists; reflexivity|].
  apply andb_prop in H. destruct H as [Hb Hbs].
  destruct (IH Hbs) as [v Hv].
  destruct b as [[|] pat|o x|[|] o z]; try discriminate; simpl;
    match goal with
    | |- context [option_map ?f ?c] => destruct (option_map f c) as [[|]|]
    end; simpl; eauto.
Qed.

Lemma scan_no_cast (bs : list bound) (t : table) :
  forallb no_cast bs = true -> scan bs t = inr (filter (selects bs) t).
Proof.
  intros H. induction t as [|r t IH]; simpl; [reflexivity|].
  unfold selects at 1. destruct (row_matches_no_cast bs r H) as [v ->]. simpl.
  rewrite IH. simpl. destruct v; reflexivity.
Qed.

Lemma check_count_ok (n : nat) (ps : list param) :
  List.length ps = n -> check_count n ps = inr tt.
Proof. intros <-. unfold check_count. rewrite Nat.eqb_refl. reflexivity. Qed.

Lemma bind_count_value (ps : list param) (n : nat) (z : Z) :
  parameter ps n = inr (PNum (Fin z 0)) -> 0 <= z -> z < 2 ^ 63 ->
  bind_count ps n = inr (Z.to_nat z).
Proof.
  intros Hp H0 H1. unfold bind_count. rewrite Hp. simpl.
  rewrite (in_int8_small z H0 H1). simpl.
  destruct (Z.ltb_spec z 0); [lia | reflexivity].
Qed.

(** The reply of the search once its conditions are bound and the scan
    has ended. *)
Lemma search_recipes_value (t : table) (q : search_query) (p l : Z)
    (bs : list bound) (m : list row) :
  paramCount (build_filters q) = List.length (queryParams (build_filters q)) ->
  bounds q = inr bs -> scan bs t = inr m ->
  search_page q = Fin p 0 -> search_limit q = Fin l 0 ->
  0 <= l -> 0 <= (p - 1) * l -> (p - 1) * l < 2 ^ 63 ->
  search_recipes t q
  = Ok200 (mkResponse (Fin p 0) (Fin l 0) (Z.of_nat (List.length m)) (page_of p l m)).
Proof.
  intros Hal Hb Hs Hp Hl Hl0 Ho0 Ho1.
  destruct (build_filters_numbered q) as [Hw _]. unfold well_numbered in Hw.
  pose proof (SearchLimit := Hl).
  assert (Hl50 : l <= 50).
  { revert Hl. unfold search_limit.
    destruct (parseInt_integral
      (match sq_limit q with Some s => VStr s | None => VNum (Fin 10 0) end))
      as [E|[z E]]; rewrite E; [discriminate|].
    rewrite min_50. intros H. inversion H. lia. }
  assert (Hrows : where_rows (whereConditions (build_filters q))
                             (queryParams (build_filters q)) t = inr m).
  { unfold where_rows. rewrite bind_build_filters, Hb. exact Hs. }
  unfold search_recipes, select_page, select_count, search_offset.
  rewrite Hp, Hl, offset_integer, Hal.
  set (b := build_filters q) in *.
  set (x := PNum (Fin l 0)). set (y := PNum (Fin ((p - 1) * l) 0)).
  change (queryParams b ++ [x] ++ [y])%list with (queryParams b ++ [x; y])%list.
  assert (HPl : parameter (queryParams b ++ [x; y])%list
                          (S (List.length (queryParams b))) = inr x)
    by exact (parameter_limit _ _ _).
  assert (HPo : parameter (queryParams b ++ [x; y])%list
                          (S (S (List.length (queryParams b)))) = inr y)
    by exact (parameter_offset _ _ _).
  assert (Hslice : slice_0_minus2 (queryParams b ++ [x; y])%list = queryParams b)
    by exact (slice_pushed _ _ _).
  rewrite check_count_ok by (rewrite !length_app; simpl; lia).
  rewrite (bind_count_value _ _ l HPl) by lia.
  rewrite (bind_count_value _ _ ((p - 1) * l) HPo) by lia.
  rewrite where_rows_app by lia. rewrite Hslice, Hrows.
  rewrite check_count_ok by lia. reflexivity.
Qed.

(** The reply of a search that has no calories filter. *)
Lemma search_value_without_calories (t : table) (q : search_query)
    (p l : Z) :
  given (sq_calories q) = None ->
  (forall s, given (sq_total_time q) = Some s ->
     exists z, int4_of_number
                 (parseInt_string (substring_from (snd (operator_prefix s)) s))
               = inr z) ->
  search_page q = Fin p 0 -> search_limit q = Fin l 0 ->
  1 <= p -> 0 <= l -> (p - 1) * l < 2 ^ 63 ->
  search_recipes t q
  = Ok200 (mkResponse (Fin p 0) (Fin l 0)
             (Z.of_nat (List.length (filter (meets q) t)))
             (page_of p l (filter (meets q) t))).
Proof.
  intros Hc Htt Hp Hl Hp1 Hl0 Hb.
  assert (Hal : paramCount (build_filters q)
                = List.length (queryParams (build_filters q))).
  { unfold build_filters, add_calories. rewrite Hc.
    apply add_total_time_aligned, add_rating_aligned, add_text_aligned,
      add_text_aligned. split; reflexivity. }
  assert (Hbounds : exists tt,
            bounds q = inr (text_bound Title (sq_title q) ++
                            text_bound Cuisine (sq_cuisine q) ++
                            rating_bound (sq_rating q) ++ tt)%list /\
            forallb no_cast tt = true).
  { unfold bounds, calories_bound. rewrite Hc. unfold total_time_bound.
    destruct (given (sq_total_time q)) as [s|].
    - destruct (Htt s eq_refl) as [z Hz].
      destruct (operator_prefix s) as [o k]. simpl in Hz. rewrite Hz. simpl.
      eexists. split; reflexivity.
    - simpl. eexists. split; reflexivity. }
  destruct Hbounds as [tt [Hq Hnc]].
  assert (Hall : forallb no_cast (text_bound Title (sq_title q) ++
                                  text_bound Cuisine (sq_cuisine q) ++
                                  rating_bound (sq_rating q) ++ tt)%list = true).
  { rewrite !forallb_app, Hnc. unfold text_bound, rating_bound.
    destruct (given (sq_title q)), (given (sq_cuisine q)),
      (given (sq_rating q)) as [v|]; try destruct (operator_prefix v);
      reflexivity. }
  rewrite (search_recipes_value t q p l _ _ Hal Hq (scan_no_cast _ t Hall) Hp Hl)
    by nia.
  rewrite (filter_ext _ _ (fun x => selects_bounds q _ x Hq)). reflexivity.
Qed.

End MeaningFacts.

Import MeaningFacts.





(** ** The pattern [%value%] *)

Module LikeFacts.

Import MeaningFacts.

Lemma like_percent_step (p t : string) :
  like (String "%" p) t
  = like p t || match t with
                | EmptyString => false
                | String _ t' => like (String "%" p) t'
                end.
Proof. destruct t; reflexivity. Qed.

Lemma like_plain_step (c : ascii) (p t : string) :
  plain_char c = true ->
  like (String c p) t
  = match t with
    | EmptyString => false
    | String c' t' => Ascii.eqb c c' && like p t'
    end.
Proof.
  intros Hc.
  destruct c as [[] [] [] [] [] [] [] []]; try discriminate Hc;
    destruct t; reflexivity.
Qed.

Lemma like_percent_only (t : string) : like "%" t = true.
Proof.
  induction t as [|c t IH]; rewrite like_percent_step; [reflexivity|].
  rewrite IH. apply orb_true_r.
Qed.

Lemma prefix_step (c c' : ascii) (s t : string) :
  String.prefix (String c s) (String c' t) = Ascii.eqb c c' && String.prefix s t.
Proof.
  simpl. destruct (ascii_dec c c') as [->|Hn].
  - rewrite Ascii.eqb_refl. reflexivity.
  - apply Ascii.eqb_neq in Hn. rewrite Hn. reflexivity.
Qed.

(** A plain text followed by [%] matches the texts that start with it. *)
Lemma like_plain_prefix (s t : string) :
  plain s = true -> like (s ++ "%") t = String.prefix s t.
Proof.
  revert t. induction s as [|c s IH]; intros t Hs.
  - simpl append. rewrite like_percent_only. destruct t; reflexivity.
  - simpl in Hs. apply andb_prop in Hs. destruct Hs as [Hc Hs].
    simpl append. rewrite (like_plain_step c _ t Hc).
    destruct t as [|c' t]; [reflexivity|].
    rewrite prefix_step, IH by exact Hs. reflexivity.
Qed.

(** A plain text between two [%] matches the texts that contain it. *)
Lemma like_contains (s t : string) :
  plain s = true -> like ("%" ++ s ++ "%") t = includes t s.
Proof.
  intros Hs. change ("%" ++ s ++ "%") with (String "%" (s ++ "%")).
  induction t as [|c t IH]; rewrite like_percent_step, like_plain_prefix by exact Hs.
  - simpl. reflexivity.
  - rewrite IH. reflexivity.
Qed.

Lemma lower_string_app (a b : string) :
  lower_string (a ++ b) = lower_string a ++ lower_string b.
Proof. induction a as [|c a IH]; simpl; [reflexivity | rewrite IH; reflexivity]. Qed.

Lemma plain_char_lower (c : ascii) : plain_char (lower c) = plain_char c.
Proof. destruct c as [[] [] [] [] [] [] [] []]; reflexivity. Qed.

Lemma plain_lower (s : string) : plain (lower_string s) = plain s.
Proof.
  induction s as [|c s IH]; simpl; [reflexivity|].
  rewrite plain_char_lower, IH. reflexivity.
Qed.

(** The pattern of a plain filter value matches the texts that contain
    the value, letter case apart. *)
Lemma ilike_contains (s x : string) :
  plain s = true ->
  ilike ("%" ++ s ++ "%") x = includes (lower_string x) (lower_string s).
Proof.
  intros Hs. unfold ilike. rewrite !lower_string_app.
  change (lower_string "%") with "%".
  apply like_contains. rewrite plain_lower. exact Hs.
Qed.

Lemma holds_text_contains (f : option string) (s : string) (cell : option string) :
  given f = Some s -> plain s = true -> holds_text f cell = contains_text s cell.
Proof.
  intros Hf Hs. unfold holds_text, contains_text. rewrite Hf.
  destruct cell as [x|]; [apply ilike_contains; exact Hs | reflexivity].
Qed.


Lemma meets_title_only (s : string) (r : row) :
  meets (title_query s) r = holds_text (Some s) (title r).
Proof.
  unfold meets, title_query. simpl.
  unfold holds_text at 2, holds_rating, holds_total_time, holds_calories. simpl.
  rewrite !andb_true_r. reflexivity.
Qed.

(** The reply of a search by title alone. *)
Lemma title_search_value (t : table) (s : string) :
  search_recipes t (title_query s)
  = Ok200 (mkResponse (Fin 1 0) (Fin 10 0)
             (Z.of_nat (List.length (filter (meets (title_query s)) t)))
             (page_of 1 10 (filter (meets (title_query s)) t))).
Proof.
  apply search_value_without_calories; try reflexivity; try lia.
  intros v H. discriminate H.
Qed.

End LikeFacts.

Import LikeFacts.



(** ** The checks of the test script *)

Module TestFacts.

Import StoreFacts OrderFacts ServerFacts PageFacts ListingFacts MeaningFacts
       LikeFacts.

Lemma in_page_of (p l : Z) (m : list row) (x : row) :
  In x (page_of p l m) -> In x m.
Proof.
  unfold page_of. intros H. apply in_firstn_in, in_skipn_in in H.
  exact (Permutation_in _ (Permutation_sym (order_by_perm m)) H).
Qed.

Lemma in_page_of_filter (p l : Z) (f : row -> bool) (t : table) (x : row) :
  In x (page_of p l (filter f t)) -> f x = true.
Proof. intros H. apply in_page_of, filter_In in H. apply H. Qed.

(** The listing of the first pages, for the page sizes of the tests. *)
Lemma listing_value (t : table) (p l : string) (pz lz : Z) :
  list_page (mkListQuery (Some p) (Some l)) = Fin pz 0 ->
  list_limit (mkListQuery (Some p) (Some l)) = Fin lz 0 ->
  1 <= pz -> 0 <= lz <= 50 -> pz <= 1000 ->
  list_recipes t (mkListQuery (Some p) (Some l))
  = Ok200 (mkResponse (Fin pz 0) (Fin lz 0) (Z.of_nat (List.length t))
                      (page_of pz lz t)).
Proof.
  intros Hp Hl H1 H2 H3. rewrite (list_recipes_value t _ pz lz Hp Hl).
  rewrite (in_int8_small lz), (in_int8_small ((pz - 1) * lz)) by nia.
  destruct (Z.ltb_spec lz 0); [lia|].
  destruct (Z.ltb_spec ((pz - 1) * lz) 0); [nia|]. reflexivity.
Qed.

Lemma rating_or_0_fin (r : row) : exists m s, rating_or_0 r = Fin m s.
Proof.
  unfold rating_or_0, wire_rating, JsNumber.or_else.
  destruct (rating r) as [[|b|m s]|]; eauto.
  destruct (JsNumber.truthy (Fin m s)); eauto.
Qed.

Lemma or_else_0 (m : Z) (s : nat) :
  JsNumber.or_else (Fin m s) (Fin 0 0) = if m =? 0 then Fin 0 0 else Fin m s.
Proof. destruct m; reflexivity. Qed.

Lemma descending_pair (x y : row) :
  comparable_rating x -> comparable_rating y -> before x y ->
  less (rating_or_0 x) (rating_or_0 y) = false.
Proof.
  unfold comparable_rating, before, precedes, rating_or_0, wire_rating, less.
  destruct (rating x) as [[|bx|a s1]|], (rating y) as [[|by'|b s2]|];
    try tauto; try discriminate; intros Hx Hy Hxy.
  - rewrite float8_compare_fin in Hxy.
    pose proof (pow10_pos s1). pose proof (pow10_pos s2).
    assert (Hle : b * pow10 s1 <= a * pow10 s2).
    { destruct (Z.compare_spec (a * pow10 s2) (b * pow10 s1)); lia. }
    rewrite !or_else_0.
    destruct (Z.eqb_spec a 0), (Z.eqb_spec b 0); subst;
      unfold JsNumber.compare; rewrite ?pow10_0;
      match goal with
      | |- context [?u ?= ?v] => destruct (Z.compare_spec u v)
      end; try reflexivity; exfalso; nia.
  - pose proof (pow10_pos s1). rewrite or_else_0.
    destruct (Z.eqb_spec a 0); subst;
      unfold JsNumber.compare; rewrite ?pow10_0;
      match goal with
      | |- context [?u ?= ?v] => destruct (Z.compare_spec u v)
      end; try reflexivity; exfalso; nia.
Qed.

Lemma ratings_descend_sorted (l : list row) :
  StronglySorted before l -> Forall comparable_rating l ->
  ratings_descend l = true.
Proof.
  induction l as [|x l IH]; intros Hs Hc; [reflexivity|].
  inversion Hs as [|? ? Hs' Hx]; subst. inversion Hc as [|? ? Hcx Hcl]; subst.
  simpl. destruct l as [|y l]; [reflexivity|].
  inversion Hx as [|? ? Hxy _]; subst. inversion Hcl as [|? ? Hcy _]; subst.
  rewrite (descending_pair x y Hcx Hcy Hxy). simpl. apply IH; assumption.
Qed.

End TestFacts.

Import TestFacts.

(** X16.  [testPagination] passes on every table whose ids are unique:
    pages 1 and 2 of the listing with 3 rows a page are both answered and
    share no id. *)
Theorem testPagination_passes (t : table) :
  NoDup (map id t) -> testPagination t = true.
Proof.
  intros Hnd. unfold testPagination.
  rewrite (listing_value t "1" "3" 1 3), (listing_value t "2" "3" 2 3);
    try reflexivity; try lia.
  simpl data. apply forallb_forall. intros i Hi.
  apply negb_true_iff. apply not_true_is_false. intros Hex.
  apply existsb_exists in Hex. destruct Hex as [j [Hj Hij]].
  apply Z.eqb_eq in Hij. subst j.
  apply in_map_iff in Hi. destruct Hi as [a [Ha Hina]].
  apply in_map_iff in Hj. destruct Hj as [b [Hb Hinb]].
  apply (pages_disjoint t 1 2 3 a b Hnd); try lia; try assumption.
Qed.

Lemma testPagination_passes_witness : testPagination Sample.recipes = true.
Proof. apply testPagination_passes. exact sample_ids_unique. Defined.

(** X17.  [testGetRecipesSorting] passes on every table whose ratings are
    absent or numbers that are not negative. *)
Theorem testGetRecipesSorting_passes (t : table) :
  Forall comparable_rating t -> testGetRecipesSorting t = true.
Proof.
  intros Hc. unfold testGetRecipesSorting.
  rewrite (listing_value t "1" "10" 1 10); try reflexivity; try lia.
  simpl data. apply ratings_descend_sorted; [apply page_of_sorted|].
  apply Forall_forall. intros x Hx. apply in_page_of in Hx.
  rewrite Forall_forall in Hc. apply Hc. exact Hx.
Qed.

Lemma testGetRecipesSorting_passes_witness :
  testGetRecipesSorting Sample.recipes = true.
Proof.
  apply testGetRecipesSorting_passes.
  repeat (apply Forall_cons;
          [unfold comparable_rating; simpl; try exact I; lia|]).
  apply Forall_nil.
Defined.

(** X18.  [testSearchByTitle] passes on every table: the search [title=pie]
    is answered and every row it carries has a title that contains "pie"
    once in lower case. *)
Theorem testSearchByTitle_passes (t : table) : testSearchByTitle t = true.
Proof.
  unfold testSearchByTitle. rewrite title_search_value. simpl data.
  apply forallb_forall. intros x Hx. apply in_page_of_filter in Hx.
  rewrite meets_title_only in Hx.
  rewrite (holds_text_contains (Some "pie") "pie" (title x) eq_refl eq_refl) in Hx.
  unfold contains_text in Hx. unfold lacks_pie.
  destruct (title x) as [ti|]; [|discriminate].
  change (lower_string "pie") with "pie" in Hx. rewrite Hx.
  destruct ti; [discriminate | reflexivity].
Qed.

(** X19.  [testSearchByRating] and [testSearchByTotalTime] pass on every
    table: the searches [rating=>=4.5] and [total_time=<=60] are answered,
    no row carried has a rating below 4.5, respectively a total time over
    60. *)
Theorem comparison_search_tests_pass (t : table) :
  testSearchByRating t = true /\ testSearchByTotalTime t = true.
Proof.
  split.
  - unfold testSearchByRating.
    rewrite (search_value_without_calories t (rating_query ">=4.5") 1 10);
      try reflexivity; try lia; [|intros s H; discriminate H].
    simpl data. apply forallb_forall. intros x Hx. apply in_page_of_filter in Hx.
    unfold meets in Hx. simpl in Hx. apply andb_prop in Hx. destruct Hx as [Hx _].
    apply andb_prop in Hx. destruct Hx as [Hx _].
    unfold holds_text in Hx. simpl in Hx.
    change (holds_rating (Some ">=4.5") (rating x))
      with (match rating x with
            | Some v => holds Ge (float8_compare v (Fin 45 1))
            | None => false
            end) in Hx.
    unfold rated_below_4_5, wire_rating, less.
    destruct (rating x) as [[|b|m s]|]; try reflexivity.
    unfold float8_compare in Hx.
    destruct (JsNumber.compare (Fin m s) (Fin 45 1)) as [[| |]|];
      try discriminate; rewrite ?andb_false_r; reflexivity.
  - unfold testSearchByTotalTime.
    rewrite (search_value_without_calories t (total_time_query "<=60") 1 10);
      try reflexivity; try lia;
      [|intros s H; inversion H; subst s; exists 60; reflexivity].
    simpl data. apply forallb_forall. intros x Hx. apply in_page_of_filter in Hx.
    unfold meets in Hx. simpl in Hx.
    change (holds_total_time (Some "<=60") (total_time x))
      with (match total_time x with
            | Some v => holds Le (v ?= 60)
            | None => false
            end) in Hx.
    unfold takes_over_60.
    destruct (total_time x) as [v|]; [|reflexivity].
    destruct (Z.compare_spec v 60); try discriminate;
      destruct (Z.ltb_spec 60 v); try lia; rewrite andb_false_r; reflexivity.
Qed.

(** X20.  [testGetRecipesBasic] passes exactly on the tables that hold at
    least one row. *)
Theorem testGetRecipesBasic_passes_iff_table_not_empty (t : table) :
  testGetRecipesBasic t = negb (Nat.eqb (List.length t) 0).
Proof.
  unfold testGetRecipesBasic.
  rewrite (listing_value t "1" "5" 1 5); try reflexivity; try lia.
  simpl. unfold page_of. simpl.
  pose proof (Permutation_length (order_by_perm t)) as Hlen.
  destruct (order_by t) as [|x l], t as [|y t']; simpl in *; try discriminate;
    reflexivity.
Qed.

(** ** The calories of the view *)

Module ViewFacts.












End ViewFacts.

Import ViewFacts.


